(** * examples/podcast_assistant.py: the command dispatcher of the podcast
      assistant, embedded as state-passing functions over a session record.

    The agent runner ([Runner.run]) is outside the repository: it is a
    component of the world the session runs in, and it answers every call
    from the history of the session, by an output or by an exception.
    Text is Python [str] restricted to the code points below 256, carried by
    [string]; every operation used by the source ([lower], [startswith],
    slicing, [strip], [replace], [split], [in], [int], decimal formatting) is
    defined below on that range. *)

From Stdlib Require Import Bool Arith Lia List ZArith.
From Stdlib Require Import Ascii String DecimalString.
Import ListNotations.

Open Scope string_scope.
Open Scope nat_scope.

(* ================================================================== *)
(** ** Python string primitives *)
(* ================================================================== *)

Module PyStr.

(** The line feed, [chr(10)]. *)
Definition NL : string := String (ascii_of_nat 10) "".

(** [str.lower] on one code point: A-Z and the upper-case letters of the
    range 192..222 (the multiplication sign 215 apart) move up by 32. *)
Definition lower_char (c : ascii) : ascii :=
  let n := nat_of_ascii c in
  if ((65 <=? n) && (n <=? 90))
     || ((192 <=? n) && (n <=? 222) && negb (n =? 215))
  then ascii_of_nat (n + 32) else c.

(** [s.lower()] *)
Fixpoint lower (s : string) : string :=
  match s with
  | EmptyString => EmptyString
  | String c s' => String (lower_char c) (lower s')
  end.

(** [s.startswith(p)] *)
Definition startswith (p s : string) : bool := String.prefix p s.

(** [s[n:]] for a non-negative literal [n]. *)
Fixpoint drop (n : nat) (s : string) : string :=
  match n, s with
  | O, _ => s
  | S _, EmptyString => EmptyString
  | S k, String _ s' => drop k s'
  end.

(** [s[:n]] for a non-negative literal [n]. *)
Fixpoint take (n : nat) (s : string) : string :=
  match n, s with
  | O, _ => EmptyString
  | S _, EmptyString => EmptyString
  | S k, String c s' => String c (take k s')
  end.

(** [c.isspace()] below 256: tab..carriage return, the four separators
    28..31, the space, NEL (133) and the no-break space (160). *)
Definition isspace (c : ascii) : bool :=
  let n := nat_of_ascii c in
  ((9 <=? n) && (n <=? 13)) || ((28 <=? n) && (n <=? 32))
  || (n =? 133) || (n =? 160).

(** [s.lstrip()] *)
Fixpoint lstrip (s : string) : string :=
  match s with
  | EmptyString => EmptyString
  | String c s' => if isspace c then lstrip s' else s
  end.

(** [s.rstrip()] *)
Fixpoint rstrip (s : string) : string :=
  match s with
  | EmptyString => EmptyString
  | String c s' =>
      match rstrip s' with
      | EmptyString => if isspace c then EmptyString else String c EmptyString
      | t => String c t
      end
  end.

(** [s.strip()] *)
Definition strip (s : string) : string := rstrip (lstrip s).

(** [sub in s] *)
Fixpoint contains (sub s : string) : bool :=
  match s with
  | EmptyString => startswith sub EmptyString
  | String _ s' => startswith sub s || contains sub s'
  end.

(** [s.replace(old, new)] for a non-empty [old]: the occurrences are taken
    from the left and do not overlap.  [skip] counts the characters of a
    matched occurrence that are still to be passed over. *)
Fixpoint replace_from (old new : string) (skip : nat) (s : string) : string :=
  match s with
  | EmptyString => EmptyString
  | String c s' =>
      match skip with
      | S k => replace_from old new k s'
      | O =>
          if startswith old s
          then new ++ replace_from old new (String.length old - 1) s'
          else String c (replace_from old new 0 s')
      end
  end.

Definition replace (old new s : string) : string := replace_from old new 0 s.

(** [s.split(sep)] for a non-empty [sep]; [cur] is the piece being read. *)
Fixpoint split_from (sep : string) (skip : nat) (cur s : string) : list string :=
  match s with
  | EmptyString => [cur]
  | String c s' =>
      match skip with
      | S k => split_from sep k cur s'
      | O =>
          if startswith sep s
          then cur :: split_from sep (String.length sep - 1) EmptyString s'
          else split_from sep 0 (cur ++ String c EmptyString) s'
      end
  end.

Definition split (sep s : string) : list string :=
  split_from sep 0 EmptyString s.

(** Python truthiness of a string. *)
Definition nonempty (s : string) : bool :=
  match s with EmptyString => false | _ => true end.

(** *** [int(s)] and [str(n)] *)

Definition digit_of (c : ascii) : option Z :=
  let n := nat_of_ascii c in
  if (48 <=? n) && (n <=? 57) then Some (Z.of_nat (n - 48)) else None.

Definition is_underscore (c : ascii) : bool := nat_of_ascii c =? 95.

(** The digits of a decimal literal, read after a first digit of value
    [acc]: more digits, each one possibly preceded by a single underscore. *)
Fixpoint digits_tail (acc : Z) (s : string) : option Z :=
  match s with
  | EmptyString => Some acc
  | String c s' =>
      match digit_of c with
      | Some d => digits_tail (10 * acc + d) s'
      | None =>
          if is_underscore c then
            match s' with
            | String c2 s2 =>
                match digit_of c2 with
                | Some d => digits_tail (10 * acc + d) s2
                | None => None
                end
            | EmptyString => None
            end
          else None
      end
  end.

Definition digits (s : string) : option Z :=
  match s with
  | String c s' =>
      match digit_of c with
      | Some d => digits_tail d s'
      | None => None
      end
  | EmptyString => None
  end.

(** [sys.get_int_max_str_digits()]: the most digits [int] converts, as the
    interpreter sets it when the program does not. *)
Definition int_max_str_digits : Z := 4300.

(** The number of digit characters of a text; underscores do not count. *)
Fixpoint count_digits (s : string) : Z :=
  match s with
  | EmptyString => 0
  | String c s' =>
      match digit_of c with
      | Some _ => 1 + count_digits s'
      | None => count_digits s'
      end
  end.

(** [int(s)] in base ten: surrounding white space, an optional sign, then
    the digits, of which there may be [int_max_str_digits] at most, leading
    zeros included.  [None] stands for [ValueError], which is raised for a
    text that is no literal and for one with too many digits alike. *)
Definition int (s : string) : option Z :=
  let literal (body : string) : option Z :=
    if (int_max_str_digits <? count_digits body)%Z then None else digits body in
  match strip s with
  | String "+" s' => literal s'
  | String "-" s' => option_map Z.opp (literal s')
  | t => literal t
  end.

(** [str(n)], as an f-string formats an integer; the numbers [int] returns
    have few enough digits to be formatted. *)
Definition str_of_int (n : Z) : string := NilZero.string_of_int (Z.to_int n).

End PyStr.

Import PyStr.

(* ================================================================== *)
(** ** Values, effects and the session object *)
(* ================================================================== *)

(** The exceptions the program can meet.  [RuntimeError] carries its
    message; [OtherError] is any exception the external runner raises that is
    none of the named ones. *)
Inductive exn : Type :=
| ValueError
| TypeError
| IndexError
| AttributeError
| EOFError
| SystemExit
| RuntimeError (msg : string)
| OtherError (what : string).

(** [result.final_output]: a [str], or an object that is not one. *)
Inductive final_output : Type :=
| Text (s : string)
| PyNone.

(** What one call of [Runner.run] does: it returns a result or raises. *)
Inductive run_result : Type :=
| Returned (out : final_output)
| Raised (e : exn).

(** [MCPServerStdio(cache_tools_list=..., params={command, args, env})] *)
Record MCPServerStdio : Type := {
  cache_tools_list : bool;
  command : string;
  args : list string;
  env : list (string * string)
}.

(** [Agent(name=..., instructions=..., mcp_servers=[...])] *)
Record Agent : Type := {
  name : string;
  instructions : string;
  mcp_servers : list MCPServerStdio
}.

(** [class PodcastAssistant]: the attributes set by [__init__]. *)
Record PodcastAssistant : Type := {
  mcp_server : MCPServerStdio;
  base_instructions : string;
  agent : Agent;
  feed_url : option string;
  episodes : option (list string);
  temp_dir : option string;
  podcast_title : option string
}.

(** What the session does to the outside, in order. *)
Inductive event : Type :=
| Print (line : string)
| Prompt (text : string)
| RunAgent (starting_agent : Agent) (input : string).

(** The session object together with its surroundings: what was printed and
    asked so far, the lines still to be read from standard input, and the
    external runner, which answers a call from the whole history (the call
    itself is the last event of it). *)
Record world : Type := {
  self : PodcastAssistant;
  log : list event;
  stdin : list string;
  runner : list event -> run_result
}.

Inductive outcome (A : Type) : Type :=
| Return (a : A)
| Raise (e : exn).
Arguments Return {A} a.
Arguments Raise {A} e.

(** Computations on the world that return or raise. *)
Definition M (A : Type) : Type := world -> outcome A * world.

Definition ret {A} (a : A) : M A := fun w => (Return a, w).

Definition raise {A} (e : exn) : M A := fun w => (Raise e, w).

Definition bind {A B} (m : M A) (k : A -> M B) : M B :=
  fun w =>
    match m w with
    | (Return a, w') => k a w'
    | (Raise e, w') => (Raise e, w')
    end.

Notation "x <- m ;; k" := (bind m (fun x => k))
  (at level 61, m at next level, right associativity).
Notation "m ;; k" := (bind m (fun _ => k))
  (at level 61, right associativity).

(** [try: body  except Exception: pass] *)
Definition try_pass (body : M unit) : M unit :=
  fun w =>
    match body w with
    | (Return _, w') => (Return tt, w')
    | (Raise SystemExit, w') => (Raise SystemExit, w')
    | (Raise _, w') => (Return tt, w')
    end.

(** [try: body  except ValueError: handler] *)
Definition try_except_ValueError (body handler : M unit) : M unit :=
  fun w =>
    match body w with
    | (Raise ValueError, w') => handler w'
    | r => r
    end.

(** [try: body  finally: final] *)
Definition try_finally {A} (body : M A) (final : M unit) : M A :=
  fun w =>
    match body w with
    | (r, w') =>
        match final w' with
        | (Return _, w'') => (r, w'')
        | (Raise e, w'') => (Raise e, w'')
        end
    end.

Definition get_self : M PodcastAssistant := fun w => (Return (self w), w).

Definition set_self (s : PodcastAssistant) : M unit :=
  fun w =>
    (Return tt,
     {| self := s; log := log w; stdin := stdin w; runner := runner w |}).

Definition emit (e : event) (w : world) : world :=
  {| self := self w; log := (log w ++ [e])%list; stdin := stdin w;
     runner := runner w |}.

(** [print(line)] *)
Definition print (line : string) : M unit := fun w => (Return tt, emit (Print line) w).

(** [await Runner.run(starting_agent=a, input=text)] *)
Definition Runner_run (a : Agent) (text : string) : M final_output :=
  fun w =>
    let w' := emit (RunAgent a text) w in
    match runner w (log w') with
    | Returned out => (Return out, w')
    | Raised e => (Raise e, w')
    end.

(** [input(text)]: the prompt is written, one line is taken from standard
    input, and the end of the stream raises [EOFError]. *)
Definition input (text : string) : M string :=
  fun w =>
    let w' := emit (Prompt text) w in
    match stdin w' with
    | [] => (Raise EOFError, w')
    | l :: rest =>
        (Return l,
         {| self := self w'; log := log w'; stdin := rest; runner := runner w' |})
    end.

(** Truthiness of an attribute that is [None] or a [str]. *)
Definition truthy (o : option string) : bool :=
  match o with
  | Some s => nonempty s
  | None => false
  end.

(** An attribute that is [None] or a [str], as an f-string formats it. *)
Definition fmt (o : option string) : string :=
  match o with
  | Some s => s
  | None => "None"
  end.

(** [str(result.final_output)], as [print] shows it. *)
Definition str_of_output (o : final_output) : string :=
  match o with
  | Text s => s
  | PyNone => "None"
  end.

Definition set_feed_url (s : PodcastAssistant) (v : option string) : PodcastAssistant :=
  {| mcp_server := mcp_server s; base_instructions := base_instructions s;
     agent := agent s; feed_url := v; episodes := episodes s;
     temp_dir := temp_dir s; podcast_title := podcast_title s |}.

Definition set_podcast_title (s : PodcastAssistant) (v : option string) : PodcastAssistant :=
  {| mcp_server := mcp_server s; base_instructions := base_instructions s;
     agent := agent s; feed_url := feed_url s; episodes := episodes s;
     temp_dir := temp_dir s; podcast_title := v |}.

Definition set_agent (s : PodcastAssistant) (a : Agent) : PodcastAssistant :=
  {| mcp_server := mcp_server s; base_instructions := base_instructions s;
     agent := a; feed_url := feed_url s; episodes := episodes s;
     temp_dir := temp_dir s; podcast_title := podcast_title s |}.

(* ================================================================== *)
(** ** class PodcastAssistant *)
(* ================================================================== *)

(** The text assigned to [self.base_instructions] in [__init__]. *)
Definition base_instructions_text : string :=
  String.concat NL
    [ "";
      "            You are a helpful podcast assistant that can:";
      "            1. Fetch and browse podcast RSS feeds";
      "            2. Search for episodes by topic";
      "            3. Transcribe and summarize podcast episodes";
      "            ";
      "            When asked to find episodes about a specific topic, search through episode titles ";
      "            and descriptions to find relevant matches. Provide a numbered list of relevant episodes.";
      "            ";
      "            When asked to summarize an episode:";
      "            1. First find the episode in the feed to get its audio URL";
      "            2. Transcribe the episode directly using the transcribe_audio tool";
      "               - Use the episode's audio URL in the episode_url parameter";
      "               - Set full_transcription=true and max_chunk_size=20";
      "            3. Provide a detailed summary of the key points, insights, and takeaways";
      "            ";
      "            Important: The transcribe_audio tool now handles downloading automatically, ";
      "            so you don't need to download the episode separately. Just pass the episode's ";
      "            audio URL directly to the transcribe_audio tool.";
      "            ";
      "            Always be conversational and helpful. Maintain context of the conversation.";
      "            " ].

(** The two constant parts of the f-string [_create_agent] appends around
    the feed URL. *)
Definition feed_note_head : string :=
  String.concat NL
    [ "";
      "            ";
      "            Current podcast RSS feed: " ].

Definition feed_note_tail : string :=
  String.concat NL
    [ "";
      "            Remember to use this feed URL for all operations unless explicitly told to use a different one.";
      "            " ].

(** [PodcastAssistant._create_agent(self, with_feed=None)] *)
Definition _create_agent (s : PodcastAssistant) (with_feed : option string) : Agent :=
  let instructions0 := base_instructions s in
  let instructions1 :=
    if truthy with_feed then
      let i := instructions0 ++ feed_note_head ++ fmt with_feed ++ feed_note_tail in
      if truthy (podcast_title s)
      then i ++ "This is the '" ++ fmt (podcast_title s) ++ "' podcast."
      else i
    else instructions0 in
  {| name := "Podcast Discovery Assistant";
     instructions := instructions1;
     mcp_servers := [mcp_server s] |}.

(** [PodcastAssistant.__init__(self, mcp_server)]: the agent is created
    with no feed, so only the base instructions are read. *)
Definition __init__ (server : MCPServerStdio) : PodcastAssistant :=
  {| mcp_server := server;
     base_instructions := base_instructions_text;
     agent := {| name := "Podcast Discovery Assistant";
                 instructions := base_instructions_text;
                 mcp_servers := [server] |};
     feed_url := None;
     episodes := None;
     temp_dir := None;
     podcast_title := None |}.

(** The request [_fetch_feed] sends. *)
Definition fetch_request (url : string) : string :=
  "Fetch the podcast RSS feed at " ++ url
  ++ " and list the 10 most recent episodes. Format the list with numbers, titles and durations.".

(** The [try] body of [_fetch_feed]: the title is read from the response. *)
Definition extract_title (result : final_output) : M unit :=
  match result with
  | PyNone => raise TypeError
  | Text response_text =>
      if contains "Title:" response_text then
        let title_line :=
          filter (contains "Title:") (split NL response_text) in
        match title_line with
        | l :: _ =>
            match nth_error (split "Title:" l) 1 with
            | Some t =>
                s <- get_self ;;
                set_self (set_podcast_title s (Some (strip t))) ;;
                print ("Podcast title: " ++ strip t)
            | None => raise IndexError
            end
        | [] => ret tt
        end
      else ret tt
  end.

(** [PodcastAssistant._fetch_feed(self, feed_url)] *)
Definition _fetch_feed (url : string) : M unit :=
  print ("Fetching RSS feed: " ++ url) ;;
  s0 <- get_self ;;
  result <- Runner_run (agent s0) (fetch_request url) ;;
  s1 <- get_self ;;
  set_self (set_feed_url s1 (Some url)) ;;
  try_pass (extract_title result) ;;
  s2 <- get_self ;;
  set_self (set_agent s2 (_create_agent s2 (Some url))) ;;
  print (str_of_output result).

(** [PodcastAssistant.start(self, feed_url=None)] *)
Definition start (url : option string) : M unit :=
  if truthy url then
    s <- get_self ;;
    set_self (set_feed_url s url) ;;
    _fetch_feed (fmt url)
  else ret tt.

Definition no_feed_message : string :=
  "No podcast feed loaded. Please provide an RSS feed URL first.".

(** The request [find_episodes_by_topic] sends. *)
Definition find_request (url : option string) (topic : string) : string :=
  "Using the podcast feed " ++ fmt url ++ ", find episodes that discuss " ++ topic
  ++ ". Provide a numbered list of relevant episodes with their titles and a brief description.".

(** [PodcastAssistant.find_episodes_by_topic(self, topic)] *)
Definition find_episodes_by_topic (topic : string) : M unit :=
  s <- get_self ;;
  if negb (truthy (feed_url s)) then print no_feed_message
  else
    print ("Searching for episodes about: " ++ topic) ;;
    result <- Runner_run (agent s) (find_request (feed_url s) topic) ;;
    print (str_of_output result).

Definition summarize_request_tail : string :=
  String.concat NL
    [ ":";
      "            1. First, find the episode in the feed to get its audio URL";
      "            2. Transcribe the episode using the transcribe_audio tool";
      "               - Pass the episode's audio URL directly to the tool (episode_url parameter)";
      "               - Use full_transcription=true and max_chunk_size=20";
      "            3. Provide a comprehensive summary of the episode content";
      "            " ].

(** The request [summarize_episode] sends. *)
Definition summarize_request (url : option string) (episode_number : Z) : string :=
  NL ++ "            For episode " ++ str_of_int episode_number
  ++ " from the podcast feed " ++ fmt url ++ summarize_request_tail.

(** [PodcastAssistant.summarize_episode(self, episode_number)] *)
Definition summarize_episode (episode_number : Z) : M unit :=
  s <- get_self ;;
  if negb (truthy (feed_url s)) then print no_feed_message
  else
    print ("Summarizing episode " ++ str_of_int episode_number ++ "...") ;;
    result <- Runner_run (agent s) (summarize_request (feed_url s) episode_number) ;;
    print (NL ++ "Episode Summary:" ++ NL) ;;
    print (str_of_output result).

Definition invalid_number_message : string :=
  "Please specify a valid episode number to summarize.".

Definition specify_topic_message : string :=
  "Please specify a topic to search for.".

(** The [help] branch of [process_command]. *)
Definition print_help : M unit :=
  print (NL ++ "Commands:") ;;
  print "  feed [URL]      - Set the podcast RSS feed URL" ;;
  print "  find [topic]    - Find episodes about a specific topic" ;;
  print "  summarize [N]   - Summarize episode number N" ;;
  print "  exit            - Exit the assistant" ;;
  print "  help            - Show this help message" ;;
  s <- get_self ;;
  if truthy (feed_url s) then
    print (NL ++ "Current podcast feed: " ++ fmt (feed_url s)) ;;
    if truthy (podcast_title s)
    then print ("Podcast title: " ++ fmt (podcast_title s))
    else ret tt
  else ret tt.

(** The topic the [which episode] branch of [process_command] computes. *)
Definition which_topic (cmd : string) : string :=
  let topic :=
    strip (replace "which eposide" "" (replace "which episode" "" (lower cmd))) in
  let topic :=
    if startswith "is about " topic then strip (drop 9 topic) else topic in
  if startswith "about " topic then strip (drop 6 topic) else topic.

(** The [else] branch of [process_command]: a general query. *)
Definition general_query (cmd : string) : M unit :=
  s <- get_self ;;
  let context :=
    if truthy (feed_url s)
    then "Using the podcast feed " ++ fmt (feed_url s) ++ ": "
    else "" in
  result <- Runner_run (agent s) (context ++ cmd) ;;
  print (str_of_output result).

(** [PodcastAssistant.process_command(self, command)] *)
Definition process_command (cmd : string) : M bool :=
  if startswith "feed " (lower cmd) then
    _fetch_feed (strip (drop 5 cmd)) ;;
    ret true
  else if startswith "find " (lower cmd) then
    find_episodes_by_topic (strip (drop 5 cmd)) ;;
    ret true
  else if startswith "summarize " (lower cmd) then
    try_except_ValueError
      (match int (strip (drop 10 cmd)) with
       | Some episode_number => summarize_episode episode_number
       | None => raise ValueError
       end)
      (print invalid_number_message) ;;
    ret true
  else if String.eqb (lower cmd) "help" then
    print_help ;;
    ret true
  else if String.eqb (lower cmd) "exit" then
    ret false
  else if startswith "which episode" (lower cmd)
          || startswith "which eposide" (lower cmd) then
    (let topic := which_topic cmd in
     if nonempty topic then find_episodes_by_topic topic
     else print specify_topic_message) ;;
    ret true
  else
    general_query cmd ;;
    ret true.

(** [PodcastAssistant.cleanup(self)]: the method [_cleanup_temp_dir] is not
    defined by the class, so reaching the call raises [AttributeError]. *)
Definition cleanup : M unit :=
  s <- get_self ;;
  if truthy (temp_dir s) then raise AttributeError else ret tt.

(* ================================================================== *)
(** ** interactive_mode, main and the script *)
(* ================================================================== *)

Definition ask : string := NL ++ "What would you like to do? > ".

(** The [while keep_running] loop of [interactive_mode]; the [trace] block
    around each command has no effect on the session.  Every turn takes one
    line from standard input or ends the loop with [EOFError], so a number of
    turns equal to the number of pending lines is never used up; the last
    branch is the turn after those. *)
Fixpoint while_keep_running (turns : nat) : M unit :=
  cmd <- input ask ;;
  keep_running <- process_command cmd ;;
  if (keep_running : bool) then
    match turns with
    | S k => while_keep_running k
    | O => raise (OtherError "more turns than lines")
    end
  else ret tt.

Definition command_loop : M unit :=
  fun w => while_keep_running (List.length (stdin w)) w.

(** What [interactive_mode] does between the construction of the assistant
    and its [try] block: the banner and the initial fetch. *)
Definition opening (initial_feed : option string) : M unit :=
  print (NL ++ "===== Podcast Assistant =====") ;;
  print "Type 'help' for available commands or 'exit' to quit" ;;
  if truthy initial_feed then start initial_feed else ret tt.

(** The body of [interactive_mode] once the assistant is constructed. *)
Definition session (initial_feed : option string) : M unit :=
  opening initial_feed ;;
  try_finally command_loop cleanup.

(** The world in which a new assistant starts. *)
Definition new_world (server : MCPServerStdio) (lines : list string)
    (r : list event -> run_result) : world :=
  {| self := __init__ server; log := []; stdin := lines; runner := r |}.

(** [interactive_mode(mcp_server, initial_feed=None)] *)
Definition interactive_mode (server : MCPServerStdio)
    (initial_feed : option string) (lines : list string)
    (r : list event -> run_result) : outcome unit * world :=
  session initial_feed (new_world server lines r).

(** What the script finds when it is started: [shutil.which("node")], the
    credential in [os.environ], the value of [--rss-feed] when the flag is
    given, the resolved path of [src/index.js], the lines of standard input
    and the external runner. *)
Record process : Type := {
  which_node : option string;
  environ_OPENAI_API_KEY : option string;
  arg_rss_feed : option string;
  index_js : string;
  stdin_lines : list string;
  agent_runner : list event -> run_result
}.

(** How a run of the script ends: its outcome, what it showed and the lines
    it left unread. *)
Definition run : Type := outcome unit * list event * list string.

(** [main()]: the required flag is parsed (its absence makes [argparse]
    exit), the tool process is described and the session runs inside it. *)
Definition main (p : process) : run :=
  match arg_rss_feed p with
  | None => (Raise SystemExit, [], stdin_lines p)
  | Some rss_feed =>
      let server :=
        {| cache_tools_list := true;
           command := "node";
           args := [index_js p];
           env := [("OPENAI_API_KEY",
                    match environ_OPENAI_API_KEY p with
                    | Some k => k
                    | None => ""
                    end)] |} in
      let '(r, w) :=
        interactive_mode server (Some rss_feed) (stdin_lines p) (agent_runner p) in
      (r, log w, stdin w)
  end.

(** The [if __name__ == "__main__":] block. *)
Definition __main__ (p : process) : run :=
  if negb (truthy (which_node p)) then
    (Raise (RuntimeError
       "Node.js is not installed. Please install Node.js to run this script."),
     [], stdin_lines p)
  else if negb (truthy (environ_OPENAI_API_KEY p)) then
    (Raise (RuntimeError
       "OPENAI_API_KEY environment variable is not set. Please set it to your OpenAI API key."),
     [], stdin_lines p)
  else main p.

(* ================================================================== *)
(** ** States of a session *)
(* ================================================================== *)

(** The operations a session is driven by. *)
Inductive operation : Type :=
| OpPrint (line : string)
| OpInput (text : string)
| OpStart (url : option string)
| OpCommand (cmd : string)
| OpCleanup.

(** The world after an operation, whether it returned or raised. *)
Definition perform (o : operation) (w : world) : world :=
  match o with
  | OpPrint line => snd (print line w)
  | OpInput text => snd (input text w)
  | OpStart url => snd (start url w)
  | OpCommand cmd => snd (process_command cmd w)
  | OpCleanup => snd (cleanup w)
  end.

(** Every world a session can be in between two operations. *)
Inductive reachable : world -> Prop :=
| reach_new : forall server lines r, reachable (new_world server lines r)
| reach_perform : forall o w, reachable w -> reachable (perform o w).

(** The worlds in which [interactive_mode] is about to read a command: the
    one left by the banner and the initial fetch, and the one left by every
    command that asked to keep running. *)
Inductive at_prompt : world -> Prop :=
| prompt_first : forall server initial_feed lines r w,
    opening initial_feed (new_world server lines r) = (Return tt, w) ->
    at_prompt w
| prompt_next : forall w cmd w1 w2,
    at_prompt w ->
    input ask w = (Return cmd, w1) ->
    process_command cmd w1 = (Return true, w2) ->
    at_prompt w2.

(** The guard [if self.feed_url] of the source: a feed is loaded when the
    attribute holds a non-empty string. *)
Definition feed_loaded (w : world) : bool := truthy (feed_url (self w)).

(** The tests of [process_command] that come before its last branch: the
    line has one of the command shapes. *)
Definition command_shaped (cmd : string) : bool :=
  startswith "feed " (lower cmd)
  || startswith "find " (lower cmd)
  || startswith "summarize " (lower cmd)
  || String.eqb (lower cmd) "help"
  || String.eqb (lower cmd) "exit"
  || startswith "which episode" (lower cmd)
  || startswith "which eposide" (lower cmd).

(** The world after one line was taken from standard input. *)
Definition asked (rest : list string) (w : world) : world :=
  {| self := self w; log := (log w ++ [Prompt ask])%list; stdin := rest;
     runner := runner w |}.

(** Where a feed URL is stored, it occurs in the instructions of the
    current agent. *)
Definition feed_in_instructions (w : world) : Prop :=
  forall url,
    feed_url (self w) = Some url ->
    contains url (instructions (agent (self w))) = true.

(** The operations that go through [_fetch_feed]: a start with a feed and
    a [feed] command. *)
Definition fetches (o : operation) : bool :=
  match o with
  | OpStart url => truthy url
  | OpCommand cmd => startswith "feed " (lower cmd)
  | _ => false
  end.

(** What a fetched session satisfies: the URL is stored, the agent is the
    one built for it, its instructions contain the URL and, for a non-empty
    URL, the stored title. *)
Definition rebuilt_for (url : string) (w : world) : Prop :=
  feed_url (self w) = Some url
  /\ agent (self w) = _create_agent (self w) (Some url)
  /\ contains url (instructions (agent (self w))) = true
  /\ (url <> "" ->
      forall t, podcast_title (self w) = Some t ->
                contains t (instructions (agent (self w))) = true).

(** The agent calls among some events. *)
Definition agent_calls (l : list event) : list event :=
  filter (fun e => match e with RunAgent _ _ => true | _ => false end) l.

(* ================================================================== *)
(** ** The wording of the specification, for comparison *)
(* ================================================================== *)

(** The text of [s] after the first occurrence of [sub], if there is one. *)
Fixpoint text_after (sub s : string) : option string :=
  if startswith sub s then Some (drop (String.length sub) s)
  else
    match s with
    | EmptyString => None
    | String _ s' => text_after sub s'
    end.

(** The text of [s] before the first occurrence of [sub], all of [s] when
    there is none. *)
Fixpoint text_before (sub s : string) : string :=
  if startswith sub s then EmptyString
  else
    match s with
    | EmptyString => EmptyString
    | String c s' => String c (text_before sub s')
    end.

(** The first line of a response that contains [Title:]. *)
Definition first_title_line (response_text : string) : option string :=
  find (contains "Title:") (split NL response_text).

(** The title as the specification words it: all the text after [Title:] on
    the line, stripped. *)
Definition title_after (line : string) : option string :=
  option_map strip (text_after "Title:" line).

(** The title between the first [Title:] of the line and the next one (or
    the end of the line), stripped. *)
Definition title_between (line : string) : option string :=
  option_map (fun rest => strip (text_before "Title:" rest))
             (text_after "Title:" line).

(** What the [which episode] branch removes from the front of a stripped
    text: a leading [is about ], then a leading [about ]. *)
Definition without_about (t : string) : string :=
  let t := if startswith "is about " t then strip (drop 9 t) else t in
  if startswith "about " t then strip (drop 6 t) else t.

(** The topic of a [which episode] line as the specification words it: the
    rest of the line after the thirteen characters of the phrase, stripped,
    less one leading [is about ] or [about ]. *)
Definition remainder_topic (line : string) : string :=
  let rest := strip (drop 13 line) in
  if startswith "is about " rest then strip (drop 9 rest)
  else if startswith "about " rest then strip (drop 6 rest)
  else rest.

(** The title [_fetch_feed] takes from an output, when it takes one: the
    value computed by the [try] body of the source, [None] when the body
    assigns nothing or raises. *)
Definition extracted_title (out : final_output) : option string :=
  match out with
  | PyNone => None
  | Text response_text =>
      if contains "Title:" response_text then
        match filter (contains "Title:") (split NL response_text) with
        | l :: _ => option_map strip (nth_error (split "Title:" l) 1)
        | [] => None
        end
      else None
  end.

(** The session object after a fetch of [url] that was answered by [out]. *)
Definition fetched_self (url : string) (out : final_output)
    (s : PodcastAssistant) : PodcastAssistant :=
  let s1 := set_feed_url s (Some url) in
  let s2 :=
    match extracted_title out with
    | Some t => set_podcast_title s1 (Some t)
    | None => s1
    end in
  set_agent s2 (_create_agent s2 (Some url)).

(** What a fetch of [url] answered by [out] shows, in order. *)
Definition fetched_events (url : string) (out : final_output)
    (a : Agent) : list event :=
  ([Print ("Fetching RSS feed: " ++ url); RunAgent a (fetch_request url)]
   ++ match extracted_title out with
      | Some t => [Print ("Podcast title: " ++ t)]
      | None => []
      end
   ++ [Print (str_of_output out)])%list.

(** A world with another session object and more events. *)
Definition update (s : PodcastAssistant) (evs : list event) (w : world) : world :=
  {| self := s; log := (log w ++ evs)%list; stdin := stdin w; runner := runner w |}.

(** A computation that only changes the session object and adds events:
    the pending input and the runner stay. *)
Definition framed {A} (m : M A) : Prop :=
  forall w, exists s evs, snd (m w) = update s evs w.

(* ================================================================== *)
(** ** Sample worlds *)
(* ================================================================== *)

Definition sample_server : MCPServerStdio :=
  {| cache_tools_list := true;
     command := "node";
     args := ["/app/src/index.js"];
     env := [("OPENAI_API_KEY", "sk-test")] |}.

(** A runner that returns the same output to every call. *)
Definition answers (out : final_output) : list event -> run_result :=
  fun _ => Returned out.

(** A runner that raises the same exception at every call. *)
Definition fails (e : exn) : list event -> run_result :=
  fun _ => Raised e.

(** A new session with no feed. *)
Definition fresh (out : final_output) : world :=
  new_world sample_server [] (answers out).

(** A session after the fetch of [url]. *)
Definition loaded (url : string) (out : final_output) : world :=
  snd (_fetch_feed url (fresh out)).

(** A text of [n] digits. *)
Fixpoint sevens (n : nat) : string :=
  match n with
  | O => EmptyString
  | S k => String "7" (sevens k)
  end.

(** A start of the script with a feed on the command line and one line,
    [exit], on standard input. *)
Definition sample_process (node key : option string) : process :=
  {| which_node := node;
     environ_OPENAI_API_KEY := key;
     arg_rss_feed := Some "https://x/rss";
     index_js := "/app/src/index.js";
     stdin_lines := ["exit"];
     agent_runner := answers (Text "ok") |}.

(* ================================================================== *)
(** ** Further notions for the properties of the dispatcher *)
(* ================================================================== *)

(** A runner that answers every call with an output. *)
Definition always_answers (r : list event -> run_result) : Prop :=
  forall history, exists out, r history = Returned out.

(** The same world with another runner. *)
Definition with_runner (r : list event -> run_result) (w : world) : world :=
  {| self := self w; log := log w; stdin := stdin w; runner := r |}.

(** The six lines the [help] branch always prints. *)
Definition help_lines : list event :=
  [Print (NL ++ "Commands:");
   Print "  feed [URL]      - Set the podcast RSS feed URL";
   Print "  find [topic]    - Find episodes about a specific topic";
   Print "  summarize [N]   - Summarize episode number N";
   Print "  exit            - Exit the assistant";
   Print "  help            - Show this help message"].


(** A method raises only what the runner raised at a call the method
    made: the call of the current agent is the last thing in the log, what
    the method showed before it holds no other call, the runner was asked
    with the history up to that call and raised the exception, and the
    session object is as before. *)
Definition raises_from_runner (m : M unit) : Prop :=
  forall w e w',
    m w = (Raise e, w') ->
    self w' = self w
    /\ exists before text,
         log w' = (log w ++ before ++ [RunAgent (agent (self w)) text])%list
         /\ agent_calls before = []
         /\ runner w (log w') = Raised e.

(** A method adds events to the log, at most one agent call among them. *)
Definition calls_once_at_most {A} (m : M A) : Prop :=
  forall w, exists evs,
    log (snd (m w)) = (log w ++ evs)%list /\ List.length (agent_calls evs) <= 1.

(** The two lines of the banner. *)
Definition banner : list event :=
  [Print (NL ++ "===== Podcast Assistant =====");
   Print "Type 'help' for available commands or 'exit' to quit"].

(* ================================================================== *)
(** ** Checks of the string primitives *)
(* ================================================================== *)

Example lower_mixed : lower "FeEd X1" = "feed x1".
Proof. reflexivity. Qed.

Example strip_both : strip "  a b  " = "a b".
Proof. reflexivity. Qed.

Example replace_all : replace "ab" "" "xabyabab" = "xy".
Proof. reflexivity. Qed.

Example replace_no_overlap : replace "aa" "b" "aaa" = "ba".
Proof. reflexivity. Qed.

Example split_title :
  split "Title:" "Title: A Title: B" = [""; " A "; " B"].
Proof. reflexivity. Qed.

Example split_lines : split NL ("a" ++ NL ++ NL ++ "b") = ["a"; ""; "b"].
Proof. reflexivity. Qed.

Example int_examples :
  int "3" = Some 3%Z /\ int " 007 " = Some 7%Z /\ int "-12" = Some (-12)%Z
  /\ int "1_000" = Some 1000%Z /\ int "abc" = None /\ int "" = None
  /\ int "1__0" = None /\ int "+ 3" = None /\ int "3_" = None.
Proof. repeat split; reflexivity. Qed.

Example int_digit_limit :
  (exists n, int (sevens 4300) = Some n)
  /\ int (sevens 4301) = None
  /\ int ("-" ++ sevens 4301) = None
  /\ int ("0" ++ sevens 4300) = None.
Proof.
  split; [eexists; vm_compute; reflexivity|].
  repeat split; vm_compute; reflexivity.
Qed.

Example str_of_int_examples :
  str_of_int 3 = "3" /\ str_of_int 0 = "0" /\ str_of_int (-12) = "-12".
Proof. repeat split; reflexivity. Qed.

Example which_topic_cooking : which_topic "which episode is about cooking" = "cooking".
Proof. reflexivity. Qed.

Example loaded_feed :
  feed_url (self (loaded "https://x/rss" (Text "ok"))) = Some "https://x/rss".
Proof. reflexivity. Qed.

(* ================================================================== *)
(** ** Lemmas on the string primitives *)
(* ================================================================== *)

Lemma startswith_nil (s : string) : startswith "" s = true.
Proof. destruct s; reflexivity. Qed.

Lemma startswith_cons (c d : ascii) (p s : string) :
  startswith (String c p) (String d s) = true <-> c = d /\ startswith p s = true.
Proof.
  unfold startswith; simpl.
  destruct (ascii_dec c d) as [->|Hne]; split; intros H.
  - split; [reflexivity | exact H].
  - apply H.
  - discriminate.
  - destruct H as [H _]; contradiction.
Qed.

(** A string that starts with [p] is [p] followed by the slice after it. *)
Lemma startswith_app (p s : string) :
  startswith p s = true -> s = p ++ drop (String.length p) s.
Proof.
  revert s; induction p as [|c p IH]; intros s H.
  - reflexivity.
  - destruct s as [|d s]; [discriminate|].
    apply startswith_cons in H as [-> H].
    simpl; f_equal; apply IH, H.
Qed.

Lemma startswith_app_intro (p s : string) : startswith p (p ++ s) = true.
Proof.
  induction p as [|c p IH]; [apply startswith_nil|].
  simpl; apply startswith_cons; split; [reflexivity | exact IH].
Qed.

Lemma take_drop (n : nat) (s : string) : take n s ++ drop n s = s.
Proof.
  revert s; induction n as [|n IH]; intros [|c s]; simpl; try reflexivity.
  f_equal; apply IH.
Qed.

(** [lower] keeps every position, so a prefix of the lowered line is the
    lowered prefix of the line. *)
Lemma lower_startswith (p s : string) :
  startswith p (lower s) = true -> lower (take (String.length p) s) = p.
Proof.
  revert s; induction p as [|c p IH]; intros s H.
  - reflexivity.
  - destruct s as [|d s]; [discriminate|].
    simpl in H; apply startswith_cons in H as [-> H].
    simpl; f_equal; apply IH, H.
Qed.

(** A line whose lowered text starts with [p] splits into a part that
    lowers to [p] and the slice the source takes after it. *)
Lemma command_shape (p cmd : string) :
  startswith p (lower cmd) = true ->
  exists pre, cmd = pre ++ drop (String.length p) cmd /\ lower pre = p.
Proof.
  intros H; exists (take (String.length p) cmd); split.
  - symmetry; apply take_drop.
  - apply lower_startswith, H.
Qed.

(** Settles another test of [process_command] on a line whose lowered
    text is known, by [H], to start with a given prefix. *)
Ltac other_test H :=
  rewrite (startswith_app _ _ H); reflexivity.

(* ================================================================== *)
(** ** The feed command *)
(* ================================================================== *)

Lemma process_command_feed (cmd : string) (w : world) :
  startswith "feed " (lower cmd) = true ->
  process_command cmd w = (_fetch_feed (strip (drop 5 cmd)) ;; ret true) w.
Proof. intros H; unfold process_command; rewrite H; reflexivity. Qed.

(** Runs the state-passing steps of a method without touching the texts. *)
Ltac same_world :=
  unfold update, emit; cbn [self log stdin runner];
  repeat rewrite <- app_assoc; cbn [app]; reflexivity.

Ltac by_run H :=
  cbn [emit update self log stdin runner];
  repeat rewrite <- app_assoc; cbn [app]; exact H.

Ltac step_m :=
  unfold bind, ret, raise, print, get_self, set_self;
  cbn [emit update
       self log stdin runner fst snd
       feed_url podcast_title agent temp_dir episodes mcp_server base_instructions
       set_feed_url set_podcast_title set_agent].

Lemma Runner_run_returned (a : Agent) (text : string) (out : final_output) (w : world) :
  runner w (log w ++ [RunAgent a text])%list = Returned out ->
  Runner_run a text w = (Return out, emit (RunAgent a text) w).
Proof. intros H; unfold Runner_run; cbn [emit log runner]; rewrite H; reflexivity. Qed.

Lemma Runner_run_raised (a : Agent) (text : string) (e : exn) (w : world) :
  runner w (log w ++ [RunAgent a text])%list = Raised e ->
  Runner_run a text w = (Raise e, emit (RunAgent a text) w).
Proof. intros H; unfold Runner_run; cbn [emit log runner]; rewrite H; reflexivity. Qed.

(** The [try] body of [_fetch_feed] followed by [except Exception: pass]
    stores the extracted title and shows it, or does nothing. *)
Lemma try_pass_extract_title (out : final_output) (w : world) :
  try_pass (extract_title out) w
  = (Return tt,
     match extracted_title out with
     | Some t => update (set_podcast_title (self w) (Some t))
                        [Print ("Podcast title: " ++ t)] w
     | None => w
     end).
Proof.
  unfold try_pass, extract_title, extracted_title.
  destruct out as [response_text|]; [|reflexivity].
  destruct (contains "Title:" response_text); [|reflexivity].
  destruct (filter _ _) as [|l ls]; [reflexivity|].
  destruct (nth_error _ 1) as [t|]; reflexivity.
Qed.

(** A fetch that the runner answers: the announcement, the call, the feed
    URL stored, the title taken when there is one, the agent rebuilt and the
    output shown. *)
Lemma _fetch_feed_returned (url : string) (out : final_output) (w : world) :
  runner w (log w ++ [Print ("Fetching RSS feed: " ++ url);
                      RunAgent (agent (self w)) (fetch_request url)])%list
  = Returned out ->
  _fetch_feed url w
  = (Return tt,
     update (fetched_self url out (self w))
            (fetched_events url out (agent (self w))) w).
Proof.
  intros Hrun.
  unfold _fetch_feed; step_m.
  rewrite (Runner_run_returned _ _ out).
  2:{ by_run Hrun. }
  step_m. rewrite try_pass_extract_title.
  unfold fetched_self, fetched_events.
  destruct (extracted_title out) as [t|]; step_m; same_world.
Qed.

(** A fetch during which the runner raises: the exception leaves the
    method after the call, and the session object is as before. *)
Lemma _fetch_feed_raised (url : string) (e : exn) (w : world) :
  runner w (log w ++ [Print ("Fetching RSS feed: " ++ url);
                      RunAgent (agent (self w)) (fetch_request url)])%list
  = Raised e ->
  _fetch_feed url w
  = (Raise e,
     update (self w)
            [Print ("Fetching RSS feed: " ++ url);
             RunAgent (agent (self w)) (fetch_request url)] w).
Proof.
  intros Hrun.
  unfold _fetch_feed; step_m.
  rewrite (Runner_run_raised _ _ e).
  2:{ by_run Hrun. }
  step_m. same_world.
Qed.

(** Whatever the runner does, a fetch starts with the announcement and the
    call of the current agent with the request for [url]. *)
Lemma _fetch_feed_log (url : string) (w : world) :
  exists tail,
    log (snd (_fetch_feed url w))
    = (log w ++ Print ("Fetching RSS feed: " ++ url)
             :: RunAgent (agent (self w)) (fetch_request url) :: tail)%list.
Proof.
  destruct (runner w (log w ++ [Print ("Fetching RSS feed: " ++ url);
                                RunAgent (agent (self w)) (fetch_request url)])%list)
    as [out|e] eqn:Hrun.
  - rewrite (_fetch_feed_returned _ _ _ Hrun). unfold fetched_events.
    eexists. cbn [snd update log app]. reflexivity.
  - rewrite (_fetch_feed_raised _ _ _ Hrun).
    exists []. reflexivity.
Qed.

Lemma bind_ret_log {A} (m : M unit) (a : A) (w : world) :
  log (snd ((m ;; ret a) w)) = log (snd (m w)).
Proof. unfold bind, ret. destruct (m w) as [[[]|e] w']; reflexivity. Qed.

Lemma bind_ret_self {A} (m : M unit) (a : A) (w : world) :
  self (snd ((m ;; ret a) w)) = self (snd (m w)).
Proof. unfold bind, ret. destruct (m w) as [[[]|e] w']; reflexivity. Qed.

Lemma agent_calls_app (l1 l2 : list event) :
  agent_calls (l1 ++ l2) = (agent_calls l1 ++ agent_calls l2)%list.
Proof. apply filter_app. Qed.

(** C1. A line that starts, whatever the case of its letters, with [feed ]
    is routed to the fetch of the feed whose URL is the rest of the line
    after the prefix, stripped: the fetch is announced and the current agent
    is called with the fetch request for that URL.  So the line
    [feed https://x/rss] fetches the URL [https://x/rss]. *)
Theorem feed_command_fetches (cmd : string) (w : world) :
  startswith "feed " (lower cmd) = true ->
  (exists pre rest,
     cmd = pre ++ rest /\ lower pre = "feed " /\
     process_command cmd w = (_fetch_feed (strip rest) ;; ret true) w /\
     exists tail,
       log (snd (process_command cmd w))
       = (log w ++ Print ("Fetching RSS feed: " ++ strip rest)
                :: RunAgent (agent (self w)) (fetch_request (strip rest))
                :: tail)%list)
  /\ process_command "feed https://x/rss" w
     = (_fetch_feed "https://x/rss" ;; ret true) w.
Proof.
  intros H; split; [|reflexivity].
  destruct (command_shape _ _ H) as [pre [Hcmd Hpre]].
  exists pre, (drop 5 cmd); repeat split; try assumption.
  - apply process_command_feed, H.
  - rewrite (process_command_feed _ _ H), bind_ret_log.
    apply _fetch_feed_log.
Qed.

(** The theorem at the line [ FEED ]-prefixed in capitals. *)
Lemma feed_command_fetches_witness :
  exists tail,
    log (snd (process_command "FEED  https://x/rss " (fresh (Text "ok"))))
    = (Print "Fetching RSS feed: https://x/rss"
         :: RunAgent (agent (self (fresh (Text "ok")))) (fetch_request "https://x/rss")
         :: tail)%list.
Proof.
  destruct (feed_command_fetches "FEED  https://x/rss " (fresh (Text "ok")) eq_refl)
    as [[pre [rest [Hcmd [Hpre [_ Hlog]]]]] _].
  assert (Hrest : rest = " https://x/rss ").
  { destruct pre as [|c1 [|c2 [|c3 [|c4 [|c5 [|c6 pre]]]]]]; try discriminate Hpre.
    simpl in Hcmd. congruence. }
  subst rest. exact Hlog.
Defined.

(* ================================================================== *)
(** ** The find command *)
(* ================================================================== *)

Section Find.

Variables (topic : string) (w : world).

Let searching : list event :=
  [Print ("Searching for episodes about: " ++ topic);
   RunAgent (agent (self w)) (find_request (feed_url (self w)) topic)].

Lemma find_no_feed :
  feed_loaded w = false ->
  find_episodes_by_topic topic w
  = (Return tt, update (self w) [Print no_feed_message] w).
Proof.
  unfold feed_loaded; intros H.
  unfold find_episodes_by_topic; step_m. rewrite H. reflexivity.
Qed.

Lemma find_returned (out : final_output) :
  feed_loaded w = true ->
  runner w (log w ++ searching)%list = Returned out ->
  find_episodes_by_topic topic w
  = (Return tt,
     update (self w) (searching ++ [Print (str_of_output out)]) w).
Proof.
  unfold feed_loaded, searching; intros H Hrun.
  unfold find_episodes_by_topic; step_m. rewrite H. cbn [negb].
  rewrite (Runner_run_returned _ _ out).
  2:{ by_run Hrun. }
  same_world.
Qed.

Lemma find_raised (e : exn) :
  feed_loaded w = true ->
  runner w (log w ++ searching)%list = Raised e ->
  find_episodes_by_topic topic w = (Raise e, update (self w) searching w).
Proof.
  unfold feed_loaded, searching; intros H Hrun.
  unfold find_episodes_by_topic; step_m. rewrite H. cbn [negb].
  rewrite (Runner_run_raised _ _ e).
  2:{ by_run Hrun. }
  same_world.
Qed.

(** With a feed loaded, a search starts with its announcement and the call
    of the current agent with the request for the topic. *)
Lemma find_log :
  feed_loaded w = true ->
  exists tail,
    log (snd (find_episodes_by_topic topic w)) = (log w ++ searching ++ tail)%list.
Proof.
  intros H. destruct (runner w (log w ++ searching)%list) as [out|e] eqn:Hrun.
  - rewrite (find_returned out H Hrun). exists [Print (str_of_output out)].
    cbn [snd update log]. reflexivity.
  - rewrite (find_raised e H Hrun). exists [].
    cbn [snd update log]. rewrite app_nil_r. reflexivity.
Qed.

End Find.

Lemma process_command_find (cmd : string) (w : world) :
  startswith "find " (lower cmd) = true ->
  process_command cmd w = (find_episodes_by_topic (strip (drop 5 cmd)) ;; ret true) w.
Proof.
  intros H.
  assert (H1 : startswith "feed " (lower cmd) = false) by other_test H.
  unfold process_command; rewrite H1, H; reflexivity.
Qed.

(** C2. A line that starts, whatever the case of its letters, with [find ]
    is routed to the topic search with the rest of the line, stripped, as
    the topic.  When a feed is loaded the search is announced and the current
    agent is called with the request for that topic; when none is, the
    message that no feed is loaded is printed, no agent call is made and
    nothing else changes.  So [find sports] searches for [sports]. *)
Theorem find_command_searches (cmd : string) (w : world) :
  startswith "find " (lower cmd) = true ->
  (exists pre rest,
     cmd = pre ++ rest /\ lower pre = "find " /\
     process_command cmd w = (find_episodes_by_topic (strip rest) ;; ret true) w /\
     (feed_loaded w = true ->
      exists tail,
        log (snd (process_command cmd w))
        = (log w ++ [Print ("Searching for episodes about: " ++ strip rest);
                     RunAgent (agent (self w))
                              (find_request (feed_url (self w)) (strip rest))]
                 ++ tail)%list) /\
     (feed_loaded w = false ->
      process_command cmd w
      = (Return true, update (self w) [Print no_feed_message] w) /\
      agent_calls (log (snd (process_command cmd w))) = agent_calls (log w)))
  /\ process_command "find sports" w
     = (find_episodes_by_topic "sports" ;; ret true) w.
Proof.
  intros H; split; [|reflexivity].
  destruct (command_shape _ _ H) as [pre [Hcmd Hpre]].
  exists pre, (drop 5 cmd).
  rewrite (process_command_find _ _ H).
  split; [exact Hcmd|]. split; [exact Hpre|]. split; [reflexivity|]. split.
  - intros Hfeed. rewrite bind_ret_log. apply find_log, Hfeed.
  - intros Hnone. unfold bind, ret. rewrite (find_no_feed _ _ Hnone).
    split; [reflexivity|].
    cbn [snd update log]. rewrite agent_calls_app, app_nil_r. reflexivity.
Qed.

(** The theorem at [Find sports], with a feed loaded and with none. *)
Lemma find_command_searches_witness :
  (exists tail,
     log (snd (process_command "Find sports" (loaded "https://x/rss" (Text "ok"))))
     = (log (loaded "https://x/rss" (Text "ok"))
        ++ [Print "Searching for episodes about: sports";
            RunAgent (agent (self (loaded "https://x/rss" (Text "ok"))))
                     (find_request (Some "https://x/rss") "sports")]
        ++ tail)%list)
  /\ process_command "Find sports" (fresh (Text "ok"))
     = (Return true,
        update (self (fresh (Text "ok"))) [Print no_feed_message] (fresh (Text "ok"))).
Proof.
  split.
  - destruct (find_command_searches "Find sports" (loaded "https://x/rss" (Text "ok")) eq_refl)
      as [[pre [rest [Hcmd [Hpre [_ [Hyes _]]]]]] _].
    assert (Hrest : rest = "sports").
    { destruct pre as [|c1 [|c2 [|c3 [|c4 [|c5 [|c6 pre]]]]]]; try discriminate Hpre.
      simpl in Hcmd. congruence. }
    subst rest. exact (Hyes eq_refl).
  - destruct (find_command_searches "Find sports" (fresh (Text "ok")) eq_refl)
      as [[pre [rest [_ [_ [_ [_ Hno]]]]]] _].
    exact (proj1 (Hno eq_refl)).
Defined.

(* ================================================================== *)
(** ** The summarize command *)
(* ================================================================== *)

Section Summarize.

Variables (n : Z) (w : world).

Let summarizing : list event :=
  [Print ("Summarizing episode " ++ str_of_int n ++ "...");
   RunAgent (agent (self w)) (summarize_request (feed_url (self w)) n)].

Lemma summarize_no_feed :
  feed_loaded w = false ->
  summarize_episode n w
  = (Return tt, update (self w) [Print no_feed_message] w).
Proof.
  unfold feed_loaded; intros H.
  unfold summarize_episode; step_m. rewrite H. reflexivity.
Qed.

Lemma summarize_returned (out : final_output) :
  feed_loaded w = true ->
  runner w (log w ++ summarizing)%list = Returned out ->
  summarize_episode n w
  = (Return tt,
     update (self w)
            (summarizing ++ [Print (NL ++ "Episode Summary:" ++ NL);
                             Print (str_of_output out)]) w).
Proof.
  unfold feed_loaded, summarizing; intros H Hrun.
  unfold summarize_episode; step_m. rewrite H. cbn [negb].
  rewrite (Runner_run_returned _ _ out).
  2:{ by_run Hrun. }
  same_world.
Qed.

Lemma summarize_raised (e : exn) :
  feed_loaded w = true ->
  runner w (log w ++ summarizing)%list = Raised e ->
  summarize_episode n w = (Raise e, update (self w) summarizing w).
Proof.
  unfold feed_loaded, summarizing; intros H Hrun.
  unfold summarize_episode; step_m. rewrite H. cbn [negb].
  rewrite (Runner_run_raised _ _ e).
  2:{ by_run Hrun. }
  same_world.
Qed.

(** With a feed loaded, the summarization inside the [try] of
    [process_command] starts with its announcement and the call of the
    current agent with the request for the episode, whatever follows. *)
Lemma summarize_log :
  feed_loaded w = true ->
  exists tail,
    log (snd (try_except_ValueError (summarize_episode n)
                                    (print invalid_number_message) w))
    = (log w ++ summarizing ++ tail)%list.
Proof.
  intros H. unfold try_except_ValueError.
  destruct (runner w (log w ++ summarizing)%list) as [out|e] eqn:Hrun.
  - rewrite (summarize_returned out H Hrun). eexists.
    cbn [snd update log]. reflexivity.
  - rewrite (summarize_raised e H Hrun).
    destruct e;
      try (exists []; cbn [snd update log]; rewrite app_nil_r; reflexivity).
    exists [Print invalid_number_message].
    unfold print. cbn [snd emit update log]. rewrite <- app_assoc. reflexivity.
Qed.

End Summarize.

Lemma process_command_summarize (cmd : string) (w : world) :
  startswith "summarize " (lower cmd) = true ->
  process_command cmd w
  = (try_except_ValueError
       (match int (strip (drop 10 cmd)) with
        | Some episode_number => summarize_episode episode_number
        | None => raise ValueError
        end)
       (print invalid_number_message) ;;
     ret true) w.
Proof.
  intros H.
  assert (H1 : startswith "feed " (lower cmd) = false) by other_test H.
  assert (H2 : startswith "find " (lower cmd) = false) by other_test H.
  unfold process_command; rewrite H1, H2, H; reflexivity.
Qed.

(** C3. A line that starts, whatever the case of its letters, with
    [summarize ] has the rest of the line, stripped, read as an integer.
    When that succeeds the command is routed to the summarization of the
    episode of that number (with a feed loaded: the announcement, then the
    call of the current agent with the request for that episode).  When it
    fails the message about the invalid number is printed, no agent call is
    made, and the session object, the pending input and the runner are as
    before.  So [summarize 3] summarizes episode 3 and [summarize abc] only
    prints the message. *)
Theorem summarize_command_parses (cmd : string) (w : world) :
  startswith "summarize " (lower cmd) = true ->
  (exists pre rest,
     cmd = pre ++ rest /\ lower pre = "summarize " /\
     (forall n : Z,
        int (strip rest) = Some n ->
        process_command cmd w
        = (try_except_ValueError (summarize_episode n)
                                 (print invalid_number_message) ;;
           ret true) w /\
        (feed_loaded w = true ->
         exists tail,
           log (snd (process_command cmd w))
           = (log w ++ [Print ("Summarizing episode " ++ str_of_int n ++ "...");
                        RunAgent (agent (self w))
                                 (summarize_request (feed_url (self w)) n)]
                    ++ tail)%list)) /\
     (int (strip rest) = None ->
      process_command cmd w
      = (Return true, update (self w) [Print invalid_number_message] w) /\
      agent_calls (log (snd (process_command cmd w))) = agent_calls (log w)))
  /\ process_command "summarize 3" w
     = (try_except_ValueError (summarize_episode 3)
                              (print invalid_number_message) ;;
        ret true) w
  /\ process_command "summarize abc" w
     = (Return true, update (self w) [Print invalid_number_message] w).
Proof.
  intros H; split; [|split; reflexivity].
  destruct (command_shape _ _ H) as [pre [Hcmd Hpre]].
  exists pre, (drop 10 cmd).
  rewrite (process_command_summarize _ _ H).
  split; [exact Hcmd|]. split; [exact Hpre|]. split.
  - intros n Hn. rewrite Hn. split; [reflexivity|].
    intros Hfeed. rewrite bind_ret_log. apply summarize_log, Hfeed.
  - intros Hn. rewrite Hn. split; [reflexivity|].
    unfold bind, ret, try_except_ValueError, raise, print.
    cbn [snd emit log]. rewrite agent_calls_app, app_nil_r. reflexivity.
Qed.

(** The theorem at [Summarize 3] with a feed loaded and at [summarize x1]. *)
Lemma summarize_command_parses_witness :
  (exists tail,
     log (snd (process_command "Summarize 3" (loaded "https://x/rss" (Text "ok"))))
     = (log (loaded "https://x/rss" (Text "ok"))
        ++ [Print "Summarizing episode 3...";
            RunAgent (agent (self (loaded "https://x/rss" (Text "ok"))))
                     (summarize_request (Some "https://x/rss") 3)]
        ++ tail)%list)
  /\ process_command "summarize x1" (fresh (Text "ok"))
     = (Return true,
        update (self (fresh (Text "ok"))) [Print invalid_number_message]
               (fresh (Text "ok"))).
Proof.
  split.
  - destruct (summarize_command_parses "Summarize 3"
                (loaded "https://x/rss" (Text "ok")) eq_refl)
      as [[pre [rest [Hcmd [Hpre [Hsome _]]]]] _].
    assert (Hrest : rest = "3").
    { do 10 (destruct pre as [|? pre]; [discriminate Hpre|]).
      destruct pre; [|discriminate Hpre].
      simpl in Hcmd. congruence. }
    subst rest. exact (proj2 (Hsome 3%Z eq_refl) eq_refl).
  - destruct (summarize_command_parses "summarize x1" (fresh (Text "ok")) eq_refl)
      as [[pre [rest [Hcmd [Hpre [_ Hnone]]]]] _].
    assert (Hrest : rest = "x1").
    { do 10 (destruct pre as [|? pre]; [discriminate Hpre|]).
      destruct pre; [|discriminate Hpre].
      simpl in Hcmd. congruence. }
    subst rest. exact (proj1 (Hnone eq_refl)).
Defined.

(** C9. A [summarize N] line with a valid integer [N], given while no feed
    is loaded, prints the message that no feed is loaded and makes no agent
    call; the session object is as before, and the result is the one every
    [find] line has in the same world. *)
Theorem summarize_without_feed (cmd : string) (n : Z) (w : world) :
  startswith "summarize " (lower cmd) = true ->
  int (strip (drop 10 cmd)) = Some n ->
  feed_loaded w = false ->
  process_command cmd w
  = (Return true, update (self w) [Print no_feed_message] w)
  /\ agent_calls (log (snd (process_command cmd w))) = agent_calls (log w)
  /\ forall find_cmd,
       startswith "find " (lower find_cmd) = true ->
       process_command find_cmd w = process_command cmd w.
Proof.
  intros H Hn Hnone.
  assert (E : process_command cmd w
              = (Return true, update (self w) [Print no_feed_message] w)).
  { rewrite (process_command_summarize _ _ H), Hn.
    unfold bind, ret, try_except_ValueError.
    rewrite (summarize_no_feed _ _ Hnone). reflexivity. }
  rewrite E. split; [reflexivity|]. split.
  - cbn [snd update log]. rewrite agent_calls_app, app_nil_r. reflexivity.
  - intros find_cmd Hfind. rewrite (process_command_find _ _ Hfind).
    unfold bind, ret. rewrite (find_no_feed _ _ Hnone). reflexivity.
Qed.

(** The theorem at [summarize 3] in a new session. *)
Lemma summarize_without_feed_witness :
  process_command "summarize 3" (fresh (Text "ok"))
  = (Return true,
     update (self (fresh (Text "ok"))) [Print no_feed_message] (fresh (Text "ok"))).
Proof.
  exact (proj1 (summarize_without_feed "summarize 3" 3%Z (fresh (Text "ok"))
                  eq_refl eq_refl eq_refl)).
Defined.

(** A number of more than 4300 digits is no valid episode number: [int]
    raises [ValueError] for it, with a feed loaded as with none. *)
Remark summarize_beyond_the_digit_limit :
  process_command ("summarize " ++ sevens 4301) (loaded "https://x/rss" (Text "ok"))
  = (Return true,
     update (self (loaded "https://x/rss" (Text "ok"))) [Print invalid_number_message]
            (loaded "https://x/rss" (Text "ok")))
  /\ process_command ("summarize " ++ sevens 4301) (fresh (Text "ok"))
     = (Return true,
        update (self (fresh (Text "ok"))) [Print invalid_number_message]
               (fresh (Text "ok"))).
Proof. split; vm_compute; reflexivity. Qed.

(* ================================================================== *)
(** ** exit and the general query *)
(* ================================================================== *)

Lemma input_line (l : string) (rest : list string) (w : world) :
  stdin w = l :: rest ->
  input ask w = (Return l, asked rest w).
Proof. intros H. unfold input. cbn [emit stdin]. rewrite H. reflexivity. Qed.

Lemma input_end (w : world) :
  stdin w = [] ->
  input ask w = (Raise EOFError, emit (Prompt ask) w).
Proof. intros H. unfold input. cbn [emit stdin]. rewrite H. reflexivity. Qed.

Lemma process_command_exit (cmd : string) (w : world) :
  lower cmd = "exit" ->
  process_command cmd w = (Return false, w).
Proof. intros H. unfold process_command. rewrite H. reflexivity. Qed.

Lemma process_command_general (cmd : string) (w : world) :
  command_shaped cmd = false ->
  process_command cmd w = (general_query cmd ;; ret true) w.
Proof.
  unfold command_shaped, process_command. intros H.
  repeat (apply orb_false_elim in H; destruct H as [H ?]).
  repeat match goal with E : _ = false |- _ => rewrite E; clear E end.
  reflexivity.
Qed.

Section GeneralQuery.

Variables (cmd : string) (w : world).

Let context : string :=
  if feed_loaded w
  then "Using the podcast feed " ++ fmt (feed_url (self w)) ++ ": "
  else "".

Lemma general_query_returned (out : final_output) :
  runner w (log w ++ [RunAgent (agent (self w)) (context ++ cmd)])%list
  = Returned out ->
  general_query cmd w
  = (Return tt,
     update (self w)
            [RunAgent (agent (self w)) (context ++ cmd);
             Print (str_of_output out)] w).
Proof.
  unfold context, feed_loaded; intros Hrun.
  unfold general_query; step_m.
  rewrite (Runner_run_returned _ _ out _ Hrun). same_world.
Qed.

Lemma general_query_raised (e : exn) :
  runner w (log w ++ [RunAgent (agent (self w)) (context ++ cmd)])%list
  = Raised e ->
  general_query cmd w
  = (Raise e, update (self w) [RunAgent (agent (self w)) (context ++ cmd)] w).
Proof.
  unfold context, feed_loaded; intros Hrun.
  unfold general_query; step_m.
  rewrite (Runner_run_raised _ _ e _ Hrun). same_world.
Qed.

(** The first thing a general query does is the call of the current agent
    with the context and the line. *)
Lemma general_query_log :
  exists tail,
    log (snd (general_query cmd w))
    = (log w ++ RunAgent (agent (self w)) (context ++ cmd) :: tail)%list.
Proof.
  destruct (runner w (log w ++ [RunAgent (agent (self w)) (context ++ cmd)])%list)
    as [out|e] eqn:Hrun.
  - rewrite (general_query_returned out Hrun). eexists. reflexivity.
  - rewrite (general_query_raised e Hrun). eexists. reflexivity.
Qed.

End GeneralQuery.

(** C5. A line equal, whatever the case of its letters, to [exit] makes
    [process_command] return [False] with nothing done, and the command loop
    that reads it returns without reading the lines after it.  A line that
    has none of the command shapes is sent as it is to the current agent as
    a general query: after the text [Using the podcast feed <url>: ] when a
    feed is loaded, and alone when none is. *)
Theorem exit_stops_and_others_are_queries (cmd : string) (w : world) :
  (lower cmd = "exit" ->
   process_command cmd w = (Return false, w) /\
   forall rest,
     stdin w = cmd :: rest ->
     command_loop w = (Return tt, asked rest w))
  /\ (command_shaped cmd = false ->
      process_command cmd w = (general_query cmd ;; ret true) w /\
      (forall url,
         feed_url (self w) = Some url -> url <> "" ->
         exists tail,
           log (snd (process_command cmd w))
           = (log w ++ RunAgent (agent (self w))
                         (("Using the podcast feed " ++ url ++ ": ") ++ cmd)
                    :: tail)%list) /\
      (feed_loaded w = false ->
       exists tail,
         log (snd (process_command cmd w))
         = (log w ++ RunAgent (agent (self w)) cmd :: tail)%list)).
Proof.
  split.
  - intros H. split; [apply process_command_exit, H|].
    intros rest Hin. unfold command_loop. rewrite Hin.
    cbn [List.length while_keep_running]. unfold bind at 1.
    rewrite (input_line _ _ _ Hin). unfold bind at 1.
    rewrite (process_command_exit _ _ H). reflexivity.
  - intros H. rewrite (process_command_general _ _ H).
    split; [reflexivity|]. split.
    + intros url Hurl Hne. rewrite bind_ret_log.
      destruct (general_query_log cmd w) as [tail Htail].
      exists tail. rewrite Htail. unfold feed_loaded. rewrite Hurl.
      destruct url; [contradiction|]. reflexivity.
    + intros Hnone. rewrite bind_ret_log.
      destruct (general_query_log cmd w) as [tail Htail].
      exists tail. rewrite Htail, Hnone. reflexivity.
Qed.

(** The theorem at [Exit] followed by another line, and at a question asked
    with a feed loaded and with none. *)
Lemma exit_stops_and_others_are_queries_witness :
  command_loop (new_world sample_server ["Exit"; "find sports"] (answers (Text "ok")))
  = (Return tt,
     asked ["find sports"]
           (new_world sample_server ["Exit"; "find sports"] (answers (Text "ok"))))
  /\ (exists tail,
        log (snd (process_command "What is new?" (loaded "https://x/rss" (Text "ok"))))
        = (log (loaded "https://x/rss" (Text "ok"))
           ++ RunAgent (agent (self (loaded "https://x/rss" (Text "ok"))))
                       "Using the podcast feed https://x/rss: What is new?"
           :: tail)%list)
  /\ (exists tail,
        log (snd (process_command "What is new?" (fresh (Text "ok"))))
        = (log (fresh (Text "ok"))
           ++ RunAgent (agent (self (fresh (Text "ok")))) "What is new?" :: tail)%list).
Proof.
  split; [|split].
  - exact (proj2 (proj1 (exit_stops_and_others_are_queries "Exit"
                   (new_world sample_server ["Exit"; "find sports"] (answers (Text "ok"))))
                   eq_refl) ["find sports"] eq_refl).
  - refine (proj1 (proj2 (proj2 (exit_stops_and_others_are_queries "What is new?"
                   (loaded "https://x/rss" (Text "ok"))) eq_refl))
                  "https://x/rss" eq_refl _).
    discriminate.
  - exact (proj2 (proj2 (proj2 (exit_stops_and_others_are_queries "What is new?"
                   (fresh (Text "ok"))) eq_refl)) eq_refl).
Defined.

(* ================================================================== *)
(** ** The which-episode questions *)
(* ================================================================== *)

Section Replace.

Variables old new : string.

Lemma replace_from_skip (k : nat) (s : string) :
  replace_from old new k s = replace_from old new 0 (drop k s).
Proof.
  revert s; induction k as [|k IH]; intros s.
  - reflexivity.
  - destruct s as [|c s]; [reflexivity|]. simpl. apply IH.
Qed.

Lemma drop_app_length (p s : string) : drop (String.length p) (p ++ s) = s.
Proof. induction p as [|c p IH]; [reflexivity | exact IH]. Qed.

(** Where [old] does not occur nothing is replaced. *)
Lemma replace_absent (s : string) :
  contains old s = false -> replace old new s = s.
Proof.
  unfold replace. induction s as [|c s IH]; intros H; [reflexivity|].
  cbn [contains] in H. apply orb_false_elim in H as [H1 H2].
  cbn [replace_from]. rewrite H1. f_equal. apply IH, H2.
Qed.

End Replace.

(** An occurrence at the very start is replaced and the scan goes on
    behind it. *)
Lemma replace_prefix (old new s : string) :
  old <> "" -> replace old new (old ++ s) = new ++ replace old new s.
Proof.
  intros Hold. unfold replace.
  destruct old as [|c old']; [contradiction|].
  change (String c old' ++ s) with (String c (old' ++ s)).
  cbn [replace_from].
  change (String c (old' ++ s)) with (String c old' ++ s).
  rewrite startswith_app_intro, replace_from_skip.
  cbn [String.length]. rewrite Nat.sub_succ, Nat.sub_0_r.
  rewrite (drop_app_length old' s). reflexivity.
Qed.

Lemma process_command_which (cmd : string) (w : world) :
  startswith "which episode" (lower cmd) || startswith "which eposide" (lower cmd) = true ->
  process_command cmd w
  = ((if nonempty (which_topic cmd) then find_episodes_by_topic (which_topic cmd)
      else print specify_topic_message) ;;
     ret true) w.
Proof.
  intros H.
  assert (Hothers : startswith "feed " (lower cmd) = false
                    /\ startswith "find " (lower cmd) = false
                    /\ startswith "summarize " (lower cmd) = false
                    /\ String.eqb (lower cmd) "help" = false
                    /\ String.eqb (lower cmd) "exit" = false).
  { apply orb_true_iff in H as [H|H]; repeat split; other_test H. }
  destruct Hothers as (H1 & H2 & H3 & H4 & H5).
  unfold process_command. rewrite H1, H2, H3, H4, H5, H. reflexivity.
Qed.

(** The topic of a line in which the phrase stands only at the start: the
    lowered rest of the line, stripped, without the leading words. *)
Lemma which_topic_single (cmd rest : string) :
  lower cmd = "which episode" ++ rest \/ lower cmd = "which eposide" ++ rest ->
  contains "which episode" rest = false ->
  contains "which eposide" rest = false ->
  which_topic cmd = without_about (strip rest).
Proof.
  intros Hcmd H1 H2. unfold which_topic, without_about.
  assert (E : replace "which eposide" ""
                (replace "which episode" "" (lower cmd)) = rest).
  { destruct Hcmd as [-> | ->].
    - rewrite replace_prefix by discriminate.
      cbn [append]. rewrite (replace_absent _ _ _ H1).
      apply replace_absent, H2.
    - assert (E1 : replace "which episode" "" ("which eposide" ++ rest)
                   = "which eposide" ++ rest).
      { unfold replace. cbn. f_equal. fold (replace "which episode" "" rest).
        rewrite (replace_absent _ _ _ H1). reflexivity. }
      rewrite E1, replace_prefix by discriminate.
      cbn [append]. apply replace_absent, H2. }
  rewrite E. reflexivity.
Qed.

(** C4, as the code has it.  For a line that starts, whatever the case of
    its letters, with [which episode] or [which eposide], the topic is
    computed from the lowered line: every occurrence of [which episode] and
    then of [which eposide] is deleted, the text is stripped, and a leading
    [is about ] and then a leading [about ] are removed.  When the phrase
    stands only at the start of the line, that is the lowered rest of the
    line, stripped, without those leading words.  An empty topic prints the
    message asking for a topic, with no agent call; any other topic is routed
    to the topic search, which with a feed loaded is announced and calls the
    current agent with the request for the topic.  So
    [which episode is about cooking] searches for [cooking]. *)
Theorem which_episode_topic (cmd : string) (w : world) :
  startswith "which episode" (lower cmd) || startswith "which eposide" (lower cmd) = true ->
  process_command cmd w
  = ((if nonempty (which_topic cmd) then find_episodes_by_topic (which_topic cmd)
      else print specify_topic_message) ;;
     ret true) w
  /\ (forall rest,
        lower cmd = "which episode" ++ rest \/ lower cmd = "which eposide" ++ rest ->
        contains "which episode" rest = false ->
        contains "which eposide" rest = false ->
        which_topic cmd = without_about (strip rest))
  /\ (which_topic cmd = "" ->
      process_command cmd w
      = (Return true, update (self w) [Print specify_topic_message] w)
      /\ agent_calls (log (snd (process_command cmd w))) = agent_calls (log w))
  /\ (which_topic cmd <> "" ->
      feed_loaded w = true ->
      exists tail,
        log (snd (process_command cmd w))
        = (log w ++ [Print ("Searching for episodes about: " ++ which_topic cmd);
                     RunAgent (agent (self w))
                              (find_request (feed_url (self w)) (which_topic cmd))]
                 ++ tail)%list)
  /\ which_topic "which episode is about cooking" = "cooking".
Proof.
  intros H. rewrite (process_command_which _ _ H).
  split; [reflexivity|]. split; [|split; [|split; [|reflexivity]]].
  - intros rest. apply which_topic_single.
  - intros Hempty. rewrite Hempty. cbn [nonempty]. split; [reflexivity|].
    unfold bind, ret, print. cbn [snd emit log].
    rewrite agent_calls_app, app_nil_r. reflexivity.
  - intros Htopic Hfeed. rewrite bind_ret_log.
    destruct (which_topic cmd) as [|c t]; [contradiction|].
    cbn [nonempty]. apply find_log, Hfeed.
Qed.

(** The theorem at [Which Episode is about Cooking], with a feed loaded. *)
Lemma which_episode_topic_witness :
  which_topic "Which Episode is about Cooking" = "cooking"
  /\ exists tail,
       log (snd (process_command "Which Episode is about Cooking"
                   (loaded "https://x/rss" (Text "ok"))))
       = (log (loaded "https://x/rss" (Text "ok"))
          ++ [Print "Searching for episodes about: cooking";
              RunAgent (agent (self (loaded "https://x/rss" (Text "ok"))))
                       (find_request (Some "https://x/rss") "cooking")]
          ++ tail)%list.
Proof.
  destruct (which_episode_topic "Which Episode is about Cooking"
              (loaded "https://x/rss" (Text "ok")) eq_refl)
    as (_ & Hsingle & _ & Hsearch & _).
  split.
  - exact (Hsingle " is about cooking" (or_introl eq_refl) eq_refl eq_refl).
  - apply Hsearch; [discriminate | reflexivity].
Defined.

(** C4, as the claim words it, fails.  In the line below the phrase occurs
    twice: the rest of the line after the phrase, without its leading
    [is about ], is [which episode format], but the topic the code searches
    for is [format]. *)
Lemma which_episode_topic_counterexample :
  startswith "which episode" (lower "which episode is about which episode format") = true
  /\ remainder_topic "which episode is about which episode format"
     = "which episode format"
  /\ which_topic "which episode is about which episode format" = "format"
  /\ agent_calls (log (snd (process_command
                              "which episode is about which episode format"
                              (loaded "https://x/rss" (Text "ok")))))
     <> agent_calls (log (snd ((find_episodes_by_topic
                                  (remainder_topic
                                     "which episode is about which episode format") ;;
                                ret true)
                                 (loaded "https://x/rss" (Text "ok"))))).
Proof.
  repeat split; try reflexivity.
  vm_compute. intros E. discriminate E.
Qed.

(* ================================================================== *)
(** ** The checks at startup *)
(* ================================================================== *)

Lemma __main___without_node (p : process) :
  truthy (which_node p) = false ->
  __main__ p
  = (Raise (RuntimeError
       "Node.js is not installed. Please install Node.js to run this script."),
     [], stdin_lines p).
Proof. intros H. unfold __main__. rewrite H. reflexivity. Qed.

Lemma __main___without_key (p : process) :
  truthy (which_node p) = true ->
  truthy (environ_OPENAI_API_KEY p) = false ->
  __main__ p
  = (Raise (RuntimeError
       "OPENAI_API_KEY environment variable is not set. Please set it to your OpenAI API key."),
     [], stdin_lines p).
Proof. intros H1 H2. unfold __main__. rewrite H1, H2. reflexivity. Qed.

Lemma __main___checked (p : process) :
  truthy (which_node p) = true ->
  truthy (environ_OPENAI_API_KEY p) = true ->
  __main__ p = main p.
Proof. intros H1 H2. unfold __main__. rewrite H1, H2. reflexivity. Qed.

(** C6. When [node] is not found or the variable [OPENAI_API_KEY] is absent
    the script raises [RuntimeError] at once: nothing was printed or asked,
    no agent was called and every line of standard input is still unread. *)
Theorem startup_checks_raise (p : process) :
  which_node p = None \/ environ_OPENAI_API_KEY p = None ->
  exists msg, __main__ p = (Raise (RuntimeError msg), [], stdin_lines p).
Proof.
  intros H.
  destruct (truthy (which_node p)) eqn:Hnode.
  - destruct H as [H|H].
    + rewrite H in Hnode. discriminate Hnode.
    + eexists. apply __main___without_key; [exact Hnode|].
      rewrite H. reflexivity.
  - eexists. apply __main___without_node, Hnode.
Qed.

(** The theorem with [node] missing, and with the variable missing. *)
Lemma startup_checks_raise_witness :
  (exists msg,
     __main__ (sample_process None (Some "sk-test"))
     = (Raise (RuntimeError msg), [], ["exit"]))
  /\ (exists msg,
        __main__ (sample_process (Some "/usr/bin/node") None)
        = (Raise (RuntimeError msg), [], ["exit"])).
Proof.
  split.
  - exact (startup_checks_raise (sample_process None (Some "sk-test"))
             (or_introl eq_refl)).
  - exact (startup_checks_raise (sample_process (Some "/usr/bin/node") None)
             (or_intror eq_refl)).
Defined.

(** With both present the same start runs the session: the banner, the
    initial fetch, the prompt, and [exit] is read. *)
Example startup_checks_pass :
  __main__ (sample_process (Some "/usr/bin/node") (Some "sk-test"))
  = main (sample_process (Some "/usr/bin/node") (Some "sk-test"))
  /\ exists shown,
       main (sample_process (Some "/usr/bin/node") (Some "sk-test"))
       = (Return tt, (shown ++ [Prompt ask])%list, []).
Proof.
  split; [reflexivity|].
  eexists. vm_compute.
  match goal with
  | |- (_, ?l, _) = _ => 
      let n := eval vm_compute in (removelast l) in
      instantiate (1 := n)
  end.
  reflexivity.
Qed.

(* ================================================================== *)
(** ** What the commands leave untouched *)
(* ================================================================== *)

Lemma find_self (topic : string) (w : world) :
  self (snd (find_episodes_by_topic topic w)) = self w.
Proof.
  destruct (feed_loaded w) eqn:H.
  - destruct (runner w (log w ++
        [Print ("Searching for episodes about: " ++ topic);
         RunAgent (agent (self w)) (find_request (feed_url (self w)) topic)])%list)
      as [out|e] eqn:Hrun.
    + rewrite (find_returned _ _ out H Hrun). reflexivity.
    + rewrite (find_raised _ _ e H Hrun). reflexivity.
  - rewrite (find_no_feed _ _ H). reflexivity.
Qed.

Lemma summarize_self (n : Z) (w : world) :
  self (snd (try_except_ValueError (summarize_episode n)
                                   (print invalid_number_message) w)) = self w.
Proof.
  unfold try_except_ValueError.
  destruct (feed_loaded w) eqn:H.
  - destruct (runner w (log w ++
        [Print ("Summarizing episode " ++ str_of_int n ++ "...");
         RunAgent (agent (self w)) (summarize_request (feed_url (self w)) n)])%list)
      as [out|e] eqn:Hrun.
    + rewrite (summarize_returned _ _ out H Hrun). reflexivity.
    + rewrite (summarize_raised _ _ e H Hrun). destruct e; reflexivity.
  - rewrite (summarize_no_feed _ _ H). reflexivity.
Qed.

Lemma print_help_self (w : world) : self (snd (print_help w)) = self w.
Proof.
  unfold print_help. step_m.
  destruct (truthy (feed_url (self w))); [|reflexivity].
  destruct (truthy (podcast_title (self w))); reflexivity.
Qed.

Lemma general_query_self (cmd : string) (w : world) :
  self (snd (general_query cmd w)) = self w.
Proof.
  destruct (runner w (log w ++ [RunAgent (agent (self w))
      ((if feed_loaded w
        then "Using the podcast feed " ++ fmt (feed_url (self w)) ++ ": "
        else "") ++ cmd)])%list) as [out|e] eqn:Hrun.
  - rewrite (general_query_returned _ _ out Hrun). reflexivity.
  - rewrite (general_query_raised _ _ e Hrun). reflexivity.
Qed.

(** Only the [feed] command changes the session object. *)
Lemma process_command_self (cmd : string) (w : world) :
  startswith "feed " (lower cmd) = false ->
  self (snd (process_command cmd w)) = self w.
Proof.
  intros Hfeed. unfold process_command. rewrite Hfeed.
  destruct (startswith "find " (lower cmd)).
  { rewrite bind_ret_self. apply find_self. }
  destruct (startswith "summarize " (lower cmd)).
  { rewrite bind_ret_self. destruct (int _) as [n|].
    - apply summarize_self.
    - reflexivity. }
  destruct (String.eqb (lower cmd) "help").
  { rewrite bind_ret_self. apply print_help_self. }
  destruct (String.eqb (lower cmd) "exit"); [reflexivity|].
  destruct (startswith "which episode" (lower cmd)
            || startswith "which eposide" (lower cmd)).
  { rewrite bind_ret_self. destruct (nonempty _).
    - apply find_self.
    - reflexivity. }
  rewrite bind_ret_self. apply general_query_self.
Qed.

(** The session object after a fetch, whatever the runner did. *)
Lemma _fetch_feed_self (url : string) (w : world) :
  self (snd (_fetch_feed url w)) = self w
  \/ exists out, self (snd (_fetch_feed url w)) = fetched_self url out (self w).
Proof.
  destruct (runner w (log w ++ [Print ("Fetching RSS feed: " ++ url);
                                RunAgent (agent (self w)) (fetch_request url)])%list)
    as [out|e] eqn:Hrun.
  - right. exists out. rewrite (_fetch_feed_returned _ _ _ Hrun). reflexivity.
  - left. rewrite (_fetch_feed_raised _ _ _ Hrun). reflexivity.
Qed.

Lemma fetched_self_temp_dir (url : string) (out : final_output) (s : PodcastAssistant) :
  temp_dir (fetched_self url out s) = temp_dir s.
Proof. unfold fetched_self. destruct (extracted_title out); reflexivity. Qed.

Lemma _fetch_feed_temp_dir (url : string) (w : world) :
  temp_dir (self (snd (_fetch_feed url w))) = temp_dir (self w).
Proof.
  destruct (_fetch_feed_self url w) as [E|[out E]]; rewrite E;
    [reflexivity | apply fetched_self_temp_dir].
Qed.

(** No operation assigns [temp_dir]. *)
Lemma perform_temp_dir (o : operation) (w : world) :
  temp_dir (self (perform o w)) = temp_dir (self w).
Proof.
  destruct o as [line|text|url|cmd|]; cbn [perform].
  - reflexivity.
  - unfold input. cbn [emit stdin]. destruct (stdin w); reflexivity.
  - unfold start. destruct (truthy url); [|reflexivity].
    step_m. rewrite _fetch_feed_temp_dir. reflexivity.
  - destruct (startswith "feed " (lower cmd)) eqn:Hfeed.
    + rewrite (process_command_feed _ _ Hfeed), bind_ret_self.
      apply _fetch_feed_temp_dir.
    + rewrite (process_command_self _ _ Hfeed). reflexivity.
  - unfold cleanup. step_m. destruct (truthy (temp_dir (self w))); reflexivity.
Qed.

Lemma reachable_temp_dir (w : world) :
  reachable w -> temp_dir (self w) = None.
Proof.
  induction 1 as [server lines r | o w Hw IH].
  - reflexivity.
  - rewrite perform_temp_dir. exact IH.
Qed.

Lemma cleanup_without_temp_dir (w : world) :
  temp_dir (self w) = None -> cleanup w = (Return tt, w).
Proof. intros H. unfold cleanup. step_m. rewrite H. reflexivity. Qed.

(** The command loop goes through reachable worlds only. *)
Lemma while_keep_running_reachable (turns : nat) (w : world) :
  reachable w -> reachable (snd (while_keep_running turns w)).
Proof.
  revert w; induction turns as [|k IH]; intros w Hw;
    cbn [while_keep_running]; unfold bind at 1;
    pose proof (reach_perform (OpInput ask) w Hw) as H1; cbn [perform] in H1;
    destruct (input ask w) as [[cmd|e] w1]; cbn [snd] in *; try exact H1;
    unfold bind at 1;
    pose proof (reach_perform (OpCommand cmd) w1 H1) as H2; cbn [perform] in H2;
    destruct (process_command cmd w1) as [[[|]|e] w2]; cbn [snd] in *;
    try exact H2.
  apply IH, H2.
Qed.

Lemma opening_reachable (initial_feed : option string) (w : world) :
  reachable w -> reachable (snd (opening initial_feed w)).
Proof.
  intros Hw. unfold opening. step_m.
  pose proof (reach_perform (OpPrint "Type 'help' for available commands or 'exit' to quit") _
                (reach_perform (OpPrint (NL ++ "===== Podcast Assistant =====")) _ Hw)) as H2.
  cbn [perform] in H2. unfold print in H2. cbn [snd] in H2.
  destruct (truthy initial_feed) eqn:Hfeed.
  - pose proof (reach_perform (OpStart initial_feed) _ H2) as H3.
    cbn [perform] in H3. destruct (start initial_feed _) as [[[]|e] w3]; exact H3.
  - exact H2.
Qed.

(* ================================================================== *)
(** ** Occurrences *)
(* ================================================================== *)

Section Occurrences.

Variable sub : string.

Lemma startswith_contains (s : string) :
  startswith sub s = true -> contains sub s = true.
Proof.
  destruct s as [|c s]; intros H; [exact H|].
  cbn [contains]. rewrite H. reflexivity.
Qed.

Lemma startswith_app_l (a b : string) :
  startswith sub a = true -> startswith sub (a ++ b) = true.
Proof.
  revert a; induction sub as [|c p IH]; intros a H.
  - apply startswith_nil.
  - destruct a as [|d a]; [discriminate|].
    apply startswith_cons in H as [-> H].
    cbn [append]. apply startswith_cons. split; [reflexivity | apply IH, H].
Qed.

Lemma contains_app_r (a b : string) :
  contains sub b = true -> contains sub (a ++ b) = true.
Proof.
  intros H. induction a as [|c a IH]; [exact H|].
  cbn [append contains]. rewrite IH. apply orb_true_r.
Qed.

Lemma contains_app_l (a b : string) :
  contains sub a = true -> contains sub (a ++ b) = true.
Proof.
  induction a as [|c a IH]; intros H.
  - cbn [contains] in H. apply startswith_contains.
    apply (startswith_app_l "" b), H.
  - cbn [contains] in H. apply orb_true_iff in H as [H|H].
    + apply startswith_contains. apply (startswith_app_l (String c a) b), H.
    + cbn [append contains]. rewrite (IH H). apply orb_true_r.
Qed.

(** A text occurs in whatever is written around it. *)
Lemma contains_middle (a b : string) : contains sub (a ++ sub ++ b) = true.
Proof. apply contains_app_r, startswith_contains, startswith_app_intro. Qed.

End Occurrences.

Lemma contains_empty (s : string) : contains "" s = true.
Proof. apply startswith_contains, startswith_nil. Qed.

(* ================================================================== *)
(** ** The agent after a fetch *)
(* ================================================================== *)

Section Fetched.

Variables (url : string) (out : final_output) (s : PodcastAssistant).

Lemma fetched_self_feed_url : feed_url (fetched_self url out s) = Some url.
Proof. unfold fetched_self. destruct (extracted_title out); reflexivity. Qed.

Lemma fetched_self_agent :
  agent (fetched_self url out s)
  = _create_agent (fetched_self url out s) (Some url).
Proof. unfold fetched_self. destruct (extracted_title out); reflexivity. Qed.

Lemma fetched_self_podcast_title :
  podcast_title (fetched_self url out s)
  = match extracted_title out with
    | Some t => Some t
    | None => podcast_title s
    end.
Proof. unfold fetched_self. destruct (extracted_title out); reflexivity. Qed.

(** The instructions written for a feed contain its URL. *)
Lemma fetched_instructions_url :
  contains url (instructions (agent (fetched_self url out s))) = true.
Proof.
  rewrite fetched_self_agent. unfold _create_agent. cbn [instructions].
  destruct url as [|c u] eqn:E; [apply contains_empty|]. rewrite <- E.
  assert (Hurl : truthy (Some url) = true) by (rewrite E; reflexivity).
  rewrite Hurl. cbn [fmt].
  destruct (truthy (podcast_title _)).
  - apply contains_app_l. do 2 apply contains_app_r.
    apply startswith_contains, startswith_app_intro.
  - do 2 apply contains_app_r.
    apply startswith_contains, startswith_app_intro.
Qed.

(** For a non-empty URL they contain the title too, when one is stored. *)
Lemma fetched_instructions_title (t : string) :
  url <> "" ->
  podcast_title (fetched_self url out s) = Some t ->
  contains t (instructions (agent (fetched_self url out s))) = true.
Proof.
  intros Hne Ht. rewrite fetched_self_agent. unfold _create_agent.
  cbn [instructions]. rewrite Ht.
  assert (Hurl : truthy (Some url) = true)
    by (destruct url; [contradiction | reflexivity]).
  rewrite Hurl. destruct t as [|c t'] eqn:E; [apply contains_empty|]. rewrite <- E.
  assert (Htitle : truthy (Some t) = true) by (rewrite E; reflexivity).
  rewrite Htitle. cbn [fmt].
  do 2 apply contains_app_r. apply startswith_contains, startswith_app_intro.
Qed.

End Fetched.

(** A fetch that returns was answered by the runner. *)
Lemma _fetch_feed_return (url : string) (w w' : world) :
  _fetch_feed url w = (Return tt, w') ->
  exists out,
    w' = update (fetched_self url out (self w))
                (fetched_events url out (agent (self w))) w.
Proof.
  intros H.
  destruct (runner w (log w ++ [Print ("Fetching RSS feed: " ++ url);
                                RunAgent (agent (self w)) (fetch_request url)])%list)
    as [out|e] eqn:Hrun.
  - rewrite (_fetch_feed_returned _ _ _ Hrun) in H. exists out. congruence.
  - rewrite (_fetch_feed_raised _ _ _ Hrun) in H. discriminate H.
Qed.

Lemma _fetch_feed_rebuilt (url : string) (w w' : world) :
  _fetch_feed url w = (Return tt, w') -> rebuilt_for url w'.
Proof.
  intros H. destruct (_fetch_feed_return _ _ _ H) as [out ->].
  unfold rebuilt_for. cbn [update self].
  split; [apply fetched_self_feed_url|].
  split; [apply fetched_self_agent|].
  split; [apply fetched_instructions_url|].
  intros Hne t. apply fetched_instructions_title, Hne.
Qed.

Lemma rebuilt_feed_in_instructions (url : string) (w : world) :
  rebuilt_for url w -> feed_in_instructions w.
Proof.
  intros (Hurl & _ & Hin & _) u Hu. rewrite Hurl in Hu.
  injection Hu as <-. exact Hin.
Qed.

Lemma same_self_feed_in_instructions (w w' : world) :
  self w' = self w -> feed_in_instructions w -> feed_in_instructions w'.
Proof. unfold feed_in_instructions. intros ->. trivial. Qed.

Lemma start_return (url : option string) (w w' : world) :
  truthy url = true ->
  start url w = (Return tt, w') ->
  rebuilt_for (fmt url) w'.
Proof.
  intros Hurl H. unfold start in H. rewrite Hurl in H.
  unfold bind at 1 2 in H. cbn [get_self set_self] in H.
  apply _fetch_feed_rebuilt in H. exact H.
Qed.

Lemma process_command_feed_return (cmd : string) (w w' : world) (b : bool) :
  startswith "feed " (lower cmd) = true ->
  process_command cmd w = (Return b, w') ->
  rebuilt_for (strip (drop 5 cmd)) w'.
Proof.
  intros Hfeed H. rewrite (process_command_feed _ _ Hfeed) in H.
  unfold bind, ret in H.
  destruct (_fetch_feed (strip (drop 5 cmd)) w) as [[[]|e] w1] eqn:E;
    [|discriminate H].
  injection H as _ <-. apply (_fetch_feed_rebuilt _ _ _ E).
Qed.

(** Operations that do not fetch leave the session object as it is. *)
Lemma perform_self (o : operation) (w : world) :
  fetches o = false -> self (perform o w) = self w.
Proof.
  destruct o as [line|text|url|cmd|]; cbn [fetches perform]; intros H.
  - reflexivity.
  - unfold input. cbn [emit stdin]. destruct (stdin w); reflexivity.
  - unfold start. rewrite H. reflexivity.
  - apply process_command_self, H.
  - unfold cleanup. step_m. destruct (truthy (temp_dir (self w))); reflexivity.
Qed.

(** At every prompt of the command loop a stored feed URL occurs in the
    instructions of the current agent. *)
Lemma at_prompt_feed_in_instructions (w : world) :
  at_prompt w -> feed_in_instructions w.
Proof.
  induction 1 as [server initial_feed lines r w Hopen
                 | w cmd w1 w2 Hw IH Hin Hcmd].
  - unfold opening in Hopen. unfold bind at 1 2, print in Hopen.
    destruct (truthy initial_feed) eqn:Hfeed.
    + apply start_return in Hopen; [|exact Hfeed].
      apply (rebuilt_feed_in_instructions _ _ Hopen).
    + injection Hopen as <-. intros url Hurl. discriminate Hurl.
  - assert (H1 : feed_in_instructions w1).
    { apply (same_self_feed_in_instructions w); [|exact IH].
      change w1 with (snd (Return cmd, w1)). rewrite <- Hin.
      apply (perform_self (OpInput ask)). reflexivity. }
    destruct (startswith "feed " (lower cmd)) eqn:Hfeed.
    + apply (rebuilt_feed_in_instructions (strip (drop 5 cmd))).
      apply (process_command_feed_return _ _ _ _ Hfeed Hcmd).
    + apply (same_self_feed_in_instructions w1); [|exact H1].
      change w2 with (snd (Return true, w2)). rewrite <- Hcmd.
      apply process_command_self, Hfeed.
Qed.

(** C7, as the code has it.  After every fetch that returns, started by
    the initial feed or by a [feed] command, the feed URL is stored, the
    agent is the one built anew for that URL, its instructions contain the
    URL and, when the URL is not empty, the stored podcast title.  No
    operation that does not fetch changes the session object, hence the
    instructions.  So at every prompt of the command loop a stored feed URL
    occurs in the instructions of the current agent. *)
Theorem agent_rebuilt_on_fetch :
  (forall (url : option string) (w w' : world),
     truthy url = true ->
     start url w = (Return tt, w') ->
     rebuilt_for (fmt url) w')
  /\ (forall (cmd : string) (w w' : world) (b : bool),
        startswith "feed " (lower cmd) = true ->
        process_command cmd w = (Return b, w') ->
        rebuilt_for (strip (drop 5 cmd)) w')
  /\ (forall (o : operation) (w : world),
        fetches o = false ->
        instructions (agent (self (perform o w))) = instructions (agent (self w)))
  /\ (forall w : world, at_prompt w -> feed_in_instructions w).
Proof.
  split; [exact start_return|].
  split; [exact process_command_feed_return|].
  split; [|exact at_prompt_feed_in_instructions].
  intros o w H. rewrite (perform_self _ _ H). reflexivity.
Qed.

(** The theorem at the fetch of [https://x/rss] answered with a title. *)
Lemma agent_rebuilt_on_fetch_witness :
  rebuilt_for "https://x/rss"
    (snd (process_command "feed https://x/rss" (fresh (Text "Title: Daily News")))).
Proof.
  exact (proj1 (proj2 agent_rebuilt_on_fetch) "feed https://x/rss"
           (fresh (Text "Title: Daily News")) _ true eq_refl eq_refl).
Defined.

(** C7, as the claim words it, fails.  The line [feed ] fetches the empty
    URL; the runner answers with a title, which is stored; the agent built
    for the empty URL has the base instructions only, and the title does not
    occur in them. *)
Lemma agent_rebuilt_on_fetch_counterexample :
  fst (process_command "feed " (fresh (Text "Title: Daily News"))) = Return true
  /\ feed_url (self (snd (process_command "feed " (fresh (Text "Title: Daily News")))))
     = Some ""
  /\ podcast_title (self (snd (process_command "feed " (fresh (Text "Title: Daily News")))))
     = Some "Daily News"
  /\ contains "Daily News"
       (instructions (agent (self (snd (process_command "feed "
                                          (fresh (Text "Title: Daily News")))))))
     = false.
Proof. repeat split; vm_compute; reflexivity. Qed.

(** The initial fetch stores the URL before it calls the agent: when the
    runner raises there, the session object holds the URL while the agent
    still has the base instructions. *)
Remark start_stores_url_first :
  fst (start (Some "https://x/rss") (new_world sample_server [] (fails (OtherError "network"))))
  = Raise (OtherError "network")
  /\ ~ feed_in_instructions
         (snd (start (Some "https://x/rss")
                 (new_world sample_server [] (fails (OtherError "network"))))).
Proof.
  split; [reflexivity|].
  intros H. specialize (H "https://x/rss" eq_refl).
  vm_compute in H. discriminate H.
Qed.

(* ================================================================== *)
(** ** cleanup *)
(* ================================================================== *)

Lemma command_loop_reachable (w : world) :
  reachable w -> reachable (snd (command_loop w)).
Proof. apply while_keep_running_reachable. Qed.

(** In a reachable world the [finally] clause adds nothing to the loop. *)
Lemma try_finally_cleanup (w : world) :
  reachable w -> try_finally command_loop cleanup w = command_loop w.
Proof.
  intros Hw. unfold try_finally.
  pose proof (command_loop_reachable w Hw) as Hend.
  destruct (command_loop w) as [r w']. cbn [snd] in Hend.
  rewrite (cleanup_without_temp_dir w' (reachable_temp_dir w' Hend)).
  reflexivity.
Qed.

(** C10.  [temp_dir] is [None] in a new session and no operation assigns
    it, so in every reachable world it is [None] and [cleanup] returns with
    the world as it was, without reaching the call of the undefined
    [_cleanup_temp_dir]; the [finally] clause of [interactive_mode]
    therefore never changes the way the session ends. *)
Theorem cleanup_never_fires (w : world) :
  reachable w ->
  temp_dir (self w) = None
  /\ (forall o, temp_dir (self (perform o w)) = None)
  /\ cleanup w = (Return tt, w)
  /\ try_finally command_loop cleanup w = command_loop w
  /\ forall server initial_feed lines r,
       interactive_mode server initial_feed lines r
       = (opening initial_feed ;; command_loop) (new_world server lines r).
Proof.
  intros Hw.
  pose proof (reachable_temp_dir w Hw) as Hnone.
  split; [exact Hnone|].
  split; [intros o; rewrite perform_temp_dir; exact Hnone|].
  split; [apply cleanup_without_temp_dir, Hnone|].
  split; [apply try_finally_cleanup, Hw|].
  intros server initial_feed lines r.
  unfold interactive_mode, session, bind.
  pose proof (opening_reachable initial_feed _ (reach_new server lines r)) as Hopen.
  destruct (opening initial_feed (new_world server lines r)) as [[[]|e] w1];
    [|reflexivity].
  apply try_finally_cleanup, Hopen.
Qed.

(** The theorem in the world left by a fetch and a search. *)
Lemma cleanup_never_fires_witness :
  cleanup (perform (OpCommand "find sports")
             (perform (OpCommand "feed https://x/rss") (fresh (Text "ok"))))
  = (Return tt,
     perform (OpCommand "find sports")
       (perform (OpCommand "feed https://x/rss") (fresh (Text "ok")))).
Proof.
  refine (proj1 (proj2 (proj2 (cleanup_never_fires _ _)))).
  do 2 apply reach_perform. apply reach_new.
Defined.

(* ================================================================== *)
(** ** Lines and pieces *)
(* ================================================================== *)

Lemma append_nil_r (s : string) : s ++ "" = s.
Proof. induction s as [|c s IH]; [reflexivity|]. cbn [append]. f_equal. exact IH. Qed.

Lemma append_assoc (a b c : string) : (a ++ b) ++ c = a ++ b ++ c.
Proof. induction a as [|x a IH]; [reflexivity|]. cbn [append]. f_equal. exact IH. Qed.

Lemma filter_head_find {A} (f : A -> bool) (l : list A) :
  match filter f l with x :: _ => Some x | [] => None end = find f l.
Proof.
  induction l as [|a l IH]; [reflexivity|].
  cbn [filter find]. destruct (f a); [reflexivity | exact IH].
Qed.

Lemma split_from_skip (sep : string) (k : nat) (cur s : string) :
  split_from sep k cur s = split_from sep 0 cur (drop k s).
Proof.
  revert s; induction k as [|k IH]; intros s; [reflexivity|].
  destruct s as [|c s]; [reflexivity|]. cbn [split_from drop]. apply IH.
Qed.

(** The pieces of a split: the text before the first separator, then the
    pieces of the text after it. *)
Lemma split_from_parts (sep : string) (s cur : string) :
  sep <> "" ->
  split_from sep 0 cur s
  = (cur ++ text_before sep s)
    :: match text_after sep s with
       | Some rest => split_from sep 0 "" rest
       | None => []
       end.
Proof.
  intros Hsep. destruct sep as [|d sep']; [contradiction|]. clear Hsep.
  revert cur; induction s as [|c s IH]; intros cur.
  - cbn. rewrite append_nil_r. reflexivity.
  - cbn [split_from text_before text_after].
    destruct (startswith (String d sep') (String c s)) eqn:E.
    + rewrite append_nil_r, split_from_skip.
      cbn [String.length drop]. rewrite Nat.sub_succ, Nat.sub_0_r. reflexivity.
    + rewrite IH, append_assoc. reflexivity.
Qed.

(** The second piece of a split is the text between the first separator
    and the next. *)
Lemma split_second (sep l : string) :
  sep <> "" ->
  nth_error (split sep l) 1 = option_map (text_before sep) (text_after sep l).
Proof.
  intros Hsep. unfold split. rewrite (split_from_parts _ _ _ Hsep).
  cbn [nth_error]. destruct (text_after sep l) as [rest|]; [|reflexivity].
  rewrite (split_from_parts _ _ _ Hsep). reflexivity.
Qed.

Lemma text_after_contains (sep s : string) :
  contains sep s = true -> exists rest, text_after sep s = Some rest.
Proof.
  induction s as [|c s IH]; intros H.
  - cbn [contains] in H. cbn [text_after]. rewrite H. eexists. reflexivity.
  - cbn [contains] in H. cbn [text_after].
    destruct (startswith sep (String c s)); [eexists; reflexivity|].
    apply IH, H.
Qed.

Section Lines.

Variable sub : string.
Hypothesis sub_one_line : contains NL sub = false.

Lemma startswith_NL (c : ascii) (s : string) :
  startswith NL (String c s) = true <-> c = ascii_of_nat 10.
Proof.
  unfold NL. split.
  - intros H. apply startswith_cons in H as [<- _]. reflexivity.
  - intros ->. apply startswith_cons. split; [reflexivity | apply startswith_nil].
Qed.

(** A one-line text that starts in front of a line feed ends before it. *)
Lemma startswith_before_NL (a b : string) :
  startswith sub (a ++ String (ascii_of_nat 10) b) = true ->
  startswith sub a = true.
Proof.
  revert sub_one_line a. induction sub as [|y p IH]; intros Hline a H.
  - apply startswith_nil.
  - cbn [contains] in Hline. apply orb_false_elim in Hline as [Hy Hp].
    destruct a as [|x a]; cbn [append] in H; apply startswith_cons in H as [-> H].
    + exfalso. rewrite (proj2 (startswith_NL _ p) eq_refl) in Hy. discriminate Hy.
    + apply startswith_cons. split; [reflexivity | apply (IH Hp), H].
Qed.

Lemma contains_across_NL (a b : string) :
  contains sub (a ++ String (ascii_of_nat 10) b) = true ->
  contains sub a = true \/ contains sub b = true.
Proof.
  induction a as [|x a IH]; cbn [append contains]; intros H;
    apply orb_true_iff in H as [H|H].
  - left. apply (startswith_before_NL "" b), H.
  - right. exact H.
  - left. rewrite (startswith_before_NL (String x a) b H). reflexivity.
  - destruct (IH H) as [Ha|Hb]; [left | right; exact Hb].
    rewrite Ha. apply orb_true_r.
Qed.

(** A one-line text that occurs in a response occurs in one of its lines. *)
Lemma some_line_contains (s cur : string) :
  contains sub (cur ++ s) = true ->
  existsb (contains sub) (split_from NL 0 cur s) = true.
Proof.
  revert cur; induction s as [|c s IH]; intros cur H.
  - rewrite append_nil_r in H. cbn. rewrite H. reflexivity.
  - cbn [split_from]. destruct (startswith NL (String c s)) eqn:E.
    + apply startswith_NL in E. subst c.
      cbn [existsb]. apply orb_true_iff.
      destruct (contains_across_NL _ _ H) as [Ha|Hb]; [left; exact Ha|].
      right. apply (IH ""). exact Hb.
    + apply IH. rewrite append_assoc. exact H.
Qed.

(** What occurs in a line occurs in the response. *)
Lemma line_in_response (s cur l : string) :
  In l (split_from NL 0 cur s) ->
  contains sub l = true ->
  contains sub (cur ++ s) = true.
Proof.
  revert cur; induction s as [|c s IH]; intros cur Hin Hl.
  - destruct Hin as [<-|[]]. rewrite append_nil_r. exact Hl.
  - cbn [split_from] in Hin. destruct (startswith NL (String c s)) eqn:E.
    + destruct Hin as [<-|Hin].
      * apply contains_app_l, Hl.
      * apply contains_app_r. cbn [contains].
        pose proof (IH "" Hin Hl) as Hs. cbn [append] in Hs.
        rewrite Hs. apply orb_true_r.
    + change (String c s) with (String c "" ++ s).
      rewrite <- append_assoc. apply (IH _ Hin Hl).
Qed.

Lemma contains_lines (s : string) :
  contains sub s = existsb (contains sub) (split NL s).
Proof.
  unfold split. destruct (contains sub s) eqn:H.
  - symmetry. apply (some_line_contains s ""), H.
  - symmetry. apply not_true_is_false. intros Hex.
    apply existsb_exists in Hex as [l [Hin Hl]].
    pose proof (line_in_response s "" l Hin Hl) as Hs. cbn [append] in Hs.
    rewrite Hs in H. discriminate H.
Qed.

End Lines.

(** The title the code extracts is the one between the first [Title:] of
    the first line that has one and the next [Title:] of that line. *)
Lemma extracted_title_between (response_text : string) :
  extracted_title (Text response_text)
  = match first_title_line response_text with
    | Some l => title_between l
    | None => None
    end.
Proof.
  unfold extracted_title, first_title_line, title_between.
  rewrite (contains_lines "Title:" eq_refl).
  rewrite <- filter_head_find.
  destruct (filter (contains "Title:") (split NL response_text)) as [|l ls] eqn:E.
  - destruct (existsb _ _); reflexivity.
  - assert (Hl : contains "Title:" l = true).
    { assert (Hin : In l (filter (contains "Title:") (split NL response_text)))
        by (rewrite E; left; reflexivity).
      apply filter_In in Hin. apply Hin. }
    assert (Hex : existsb (contains "Title:") (split NL response_text) = true).
    { apply existsb_exists. exists l. split; [|exact Hl].
      assert (Hin : In l (filter (contains "Title:") (split NL response_text)))
        by (rewrite E; left; reflexivity).
      apply filter_In in Hin. apply Hin. }
    rewrite Hex, split_second by discriminate.
    destruct (text_after "Title:" l); reflexivity.
Qed.

(* ================================================================== *)
(** ** The podcast title *)
(* ================================================================== *)

(** C8, as the code has it.  In a fetch that the runner answers, the
    title is looked for in the output.  When some line of the output
    contains [Title:], the title becomes the text between the first [Title:]
    of the first such line and the next [Title:] of that line (the end of the
    line when there is none), stripped, and it is shown.  When no line
    contains it the stored title stays, and when the output is not a text the
    [try] body raises [TypeError], which is dropped, and the stored title
    stays; nothing about it is shown.  In every case the fetch returns with
    the feed URL stored and the agent built anew. *)
Theorem title_extraction (url : string) (out : final_output) (w : world) :
  runner w (log w ++ [Print ("Fetching RSS feed: " ++ url);
                      RunAgent (agent (self w)) (fetch_request url)])%list
  = Returned out ->
  exists w',
    _fetch_feed url w = (Return tt, w')
    /\ feed_url (self w') = Some url
    /\ agent (self w') = _create_agent (self w') (Some url)
    /\ (forall r l,
          out = Text r -> first_title_line r = Some l ->
          contains "Title:" l = true
          /\ exists rest,
               text_after "Title:" l = Some rest
               /\ podcast_title (self w') = Some (strip (text_before "Title:" rest))
               /\ log w'
                  = (log w ++ [Print ("Fetching RSS feed: " ++ url);
                               RunAgent (agent (self w)) (fetch_request url);
                               Print ("Podcast title: "
                                      ++ strip (text_before "Title:" rest));
                               Print r])%list)
    /\ (forall r,
          out = Text r -> first_title_line r = None ->
          contains "Title:" r = false
          /\ podcast_title (self w') = podcast_title (self w)
          /\ log w'
             = (log w ++ [Print ("Fetching RSS feed: " ++ url);
                          RunAgent (agent (self w)) (fetch_request url);
                          Print r])%list)
    /\ (out = PyNone ->
        (forall w0, extract_title out w0 = (Raise TypeError, w0))
        /\ podcast_title (self w') = podcast_title (self w)
        /\ log w'
           = (log w ++ [Print ("Fetching RSS feed: " ++ url);
                        RunAgent (agent (self w)) (fetch_request url);
                        Print "None"])%list).
Proof.
  intros Hrun. rewrite (_fetch_feed_returned _ _ _ Hrun).
  eexists. split; [reflexivity|]. cbn [update self log].
  split; [apply fetched_self_feed_url|].
  split; [apply fetched_self_agent|].
  rewrite fetched_self_podcast_title. unfold fetched_events.
  split; [|split].
  - intros r l -> Hline. rewrite extracted_title_between, Hline.
    assert (Hl : contains "Title:" l = true)
      by (apply (find_some _ _ Hline)).
    split; [exact Hl|].
    destruct (text_after_contains _ _ Hl) as [rest Hrest].
    exists rest. unfold title_between. rewrite Hrest. cbn [option_map].
    repeat split; reflexivity.
  - intros r -> Hline. rewrite extracted_title_between, Hline.
    split; [|split; reflexivity].
    rewrite (contains_lines "Title:" eq_refl).
    apply not_true_is_false. intros Hex.
    apply existsb_exists in Hex as [l [Hin Hl]].
    unfold first_title_line in Hline.
    apply (find_none _ _ Hline) in Hin. rewrite Hin in Hl. discriminate Hl.
  - intros ->. repeat split; reflexivity.
Qed.

(** The theorem at an output with the title on its second line. *)
Lemma title_extraction_witness :
  podcast_title (self (snd (_fetch_feed "https://x/rss"
                              (fresh (Text ("Feed loaded." ++ NL ++ "Podcast Title:  The Daily "
                                            ++ NL ++ "1. First"))))))
  = Some "The Daily".
Proof.
  destruct (title_extraction "https://x/rss"
              (Text ("Feed loaded." ++ NL ++ "Podcast Title:  The Daily " ++ NL ++ "1. First"))
              (fresh (Text ("Feed loaded." ++ NL ++ "Podcast Title:  The Daily "
                            ++ NL ++ "1. First")))
              eq_refl)
    as (w' & Hfetch & _ & _ & Htitle & _).
  rewrite Hfetch. cbn [snd].
  destruct (Htitle _ "Podcast Title:  The Daily " eq_refl eq_refl)
    as (_ & rest & Hrest & Hstored & _).
  rewrite Hstored. injection Hrest as <-. reflexivity.
Defined.

(** C8, as the claim words it, fails.  The only line of the output below
    has [Title:] twice: all the text after [Title:] on it, stripped, is
    [News Title: Extra], but the title the fetch stores is [News]. *)
Lemma title_extraction_counterexample :
  first_title_line "Title: News Title: Extra" = Some "Title: News Title: Extra"
  /\ title_after "Title: News Title: Extra" = Some "News Title: Extra"
  /\ fst (_fetch_feed "https://x/rss" (fresh (Text "Title: News Title: Extra")))
     = Return tt
  /\ podcast_title (self (snd (_fetch_feed "https://x/rss"
                                 (fresh (Text "Title: News Title: Extra")))))
     = Some "News"
  /\ podcast_title (self (snd (_fetch_feed "https://x/rss"
                                 (fresh (Text "Title: News Title: Extra")))))
     <> title_after "Title: News Title: Extra".
Proof. repeat split; try reflexivity. vm_compute. discriminate. Qed.

(* ================================================================== *)
(** ** The loop never runs out of turns *)
(* ================================================================== *)

Create HintDb frame.

Lemma update_update (s s' : PodcastAssistant) (evs evs' : list event) (w : world) :
  update s' evs' (update s evs w) = update s' (evs ++ evs')%list w.
Proof. unfold update. cbn [self log stdin runner]. rewrite app_assoc. reflexivity. Qed.

Lemma framed_ret {A} (a : A) : framed (ret a).
Proof. intros w. exists (self w), []. unfold update. rewrite app_nil_r. destruct w; reflexivity. Qed.

Lemma framed_raise {A} (e : exn) : framed (@raise A e).
Proof. intros w. exists (self w), []. unfold update. rewrite app_nil_r. destruct w; reflexivity. Qed.

Lemma framed_get_self : framed get_self.
Proof. apply (framed_ret tt). Qed.

Lemma framed_set_self (s : PodcastAssistant) : framed (set_self s).
Proof. intros w. exists s, []. unfold update. rewrite app_nil_r. reflexivity. Qed.

Lemma framed_print (line : string) : framed (print line).
Proof. intros w. exists (self w), [Print line]. reflexivity. Qed.

Lemma framed_Runner_run (a : Agent) (text : string) : framed (Runner_run a text).
Proof.
  intros w. exists (self w), [RunAgent a text]. unfold Runner_run.
  destruct (runner w _); reflexivity.
Qed.

Lemma framed_bind {A B} (m : M A) (k : A -> M B) :
  framed m -> (forall a, framed (k a)) -> framed (bind m k).
Proof.
  intros Hm Hk w. unfold bind.
  destruct (Hm w) as (s & evs & E). destruct (m w) as [[a|e] w1]; cbn [snd] in E.
  - destruct (Hk a w1) as (s' & evs' & E'). subst w1.
    rewrite update_update in E'. eauto.
  - eauto.
Qed.

Lemma framed_try_pass (m : M unit) : framed m -> framed (try_pass m).
Proof.
  intros Hm w. unfold try_pass. destruct (Hm w) as (s & evs & E).
  destruct (m w) as [[[]|[]] w1]; cbn [snd] in *; eauto.
Qed.

Lemma framed_try_except_ValueError (m h : M unit) :
  framed m -> framed h -> framed (try_except_ValueError m h).
Proof.
  intros Hm Hh w. unfold try_except_ValueError. destruct (Hm w) as (s & evs & E).
  destruct (m w) as [[[]|[]] w1]; cbn [snd] in *; eauto.
  destruct (Hh w1) as (s' & evs' & E'). subst w1.
  rewrite update_update in E'. eauto.
Qed.

#[local] Hint Resolve framed_ret framed_raise framed_get_self framed_set_self
  framed_print framed_Runner_run framed_try_pass framed_try_except_ValueError
  : frame.

(** Splits a method into its steps and frames each one. *)
Ltac frame_steps :=
  repeat first
    [ solve [auto with frame]
    | apply framed_bind; [|intros ?]
    | apply framed_try_pass
    | apply framed_try_except_ValueError
    | match goal with
      | |- framed (if ?b then _ else _) => destruct b
      | |- framed (match ?x with _ => _ end) => destruct x
      end ].

Lemma framed_extract_title (out : final_output) : framed (extract_title out).
Proof. unfold extract_title. frame_steps. Qed.

#[local] Hint Resolve framed_extract_title : frame.

Lemma framed__fetch_feed (url : string) : framed (_fetch_feed url).
Proof. unfold _fetch_feed. frame_steps. Qed.

Lemma framed_find_episodes_by_topic (topic : string) :
  framed (find_episodes_by_topic topic).
Proof. unfold find_episodes_by_topic. frame_steps. Qed.

Lemma framed_summarize_episode (n : Z) : framed (summarize_episode n).
Proof. unfold summarize_episode. frame_steps. Qed.

Lemma framed_print_help : framed print_help.
Proof. unfold print_help. frame_steps. Qed.

Lemma framed_general_query (cmd : string) : framed (general_query cmd).
Proof. unfold general_query. frame_steps. Qed.

#[local] Hint Resolve framed__fetch_feed framed_find_episodes_by_topic
  framed_summarize_episode framed_print_help framed_general_query : frame.

(** A command leaves the pending input and the runner as they are. *)
Lemma framed_process_command (cmd : string) : framed (process_command cmd).
Proof. unfold process_command. frame_steps. Qed.

Lemma process_command_stdin (cmd : string) (w : world) :
  stdin (snd (process_command cmd w)) = stdin w.
Proof. destruct (framed_process_command cmd w) as (s & evs & ->). reflexivity. Qed.

(** With at least as many turns as pending lines, the loop runs as with
    exactly that many: the turn after the last line is never taken. *)
Lemma while_keep_running_enough (n : nat) :
  forall (w : world) (turns : nat),
    List.length (stdin w) = n -> n <= turns ->
    while_keep_running turns w = while_keep_running n w.
Proof.
  induction n as [|n IH]; intros w turns Hlen Hle.
  - assert (Hnil : stdin w = []) by (destruct (stdin w); [reflexivity | discriminate]).
    destruct turns; cbn [while_keep_running]; unfold bind at 1 3;
      rewrite (input_end _ Hnil); reflexivity.
  - destruct (stdin w) as [|cmd rest] eqn:Hin; [discriminate|].
    destruct turns as [|turns]; [lia|].
    cbn [while_keep_running]. unfold bind at 1 3.
    rewrite (input_line _ _ _ Hin). unfold bind at 1 2.
    pose proof (process_command_stdin cmd (asked rest w)) as Hkeep.
    destruct (process_command cmd (asked rest w)) as [[[|]|e] w2];
      try reflexivity.
    cbn [snd asked stdin] in Hkeep. apply IH.
    + rewrite Hkeep. cbn [List.length] in Hlen. lia.
    + lia.
Qed.

(* ================================================================== *)
(** ** help, exit and the order of the tests *)
(* ================================================================== *)

Lemma process_command_help (cmd : string) (w : world) :
  lower cmd = "help" -> process_command cmd w = (print_help ;; ret true) w.
Proof. intros H. unfold process_command. rewrite H. reflexivity. Qed.

(** X1.  A line equal, whatever the case of its letters, to [help] prints
    the six lines of the command list, then the current feed when one is
    loaded, then the podcast title when a feed is loaded and a non-empty
    title is stored.  It makes no agent call, leaves the session object as
    it is and asks the loop to go on. *)
Theorem help_only_prints (cmd : string) (w : world) :
  lower cmd = "help" ->
  exists evs,
    process_command cmd w = (Return true, update (self w) evs w)
    /\ agent_calls evs = []
    /\ (feed_loaded w = false -> evs = help_lines)
    /\ (feed_loaded w = true -> truthy (podcast_title (self w)) = false ->
        evs = (help_lines
               ++ [Print (NL ++ "Current podcast feed: " ++ fmt (feed_url (self w)))])%list)
    /\ (feed_loaded w = true -> truthy (podcast_title (self w)) = true ->
        evs = (help_lines
               ++ [Print (NL ++ "Current podcast feed: " ++ fmt (feed_url (self w)));
                   Print ("Podcast title: " ++ fmt (podcast_title (self w)))])%list).
Proof.
  intros H. rewrite (process_command_help _ _ H).
  unfold print_help, feed_loaded. step_m.
  destruct (truthy (feed_url (self w))) eqn:Hfeed;
    [destruct (truthy (podcast_title (self w))) eqn:Htitle|];
    eexists; (split; [same_world|]);
    (split; [reflexivity|]);
    repeat split; intros; try discriminate; reflexivity.
Qed.

(** The theorem at [HELP] in a session with a feed and a title. *)
Lemma help_only_prints_witness :
  process_command "HELP" (loaded "https://x/rss" (Text "Title: Daily News"))
  = (Return true,
     update (self (loaded "https://x/rss" (Text "Title: Daily News")))
            (help_lines
             ++ [Print (NL ++ "Current podcast feed: https://x/rss");
                 Print "Podcast title: Daily News"])%list
            (loaded "https://x/rss" (Text "Title: Daily News"))).
Proof.
  destruct (help_only_prints "HELP" (loaded "https://x/rss" (Text "Title: Daily News"))
              eq_refl) as (evs & Hrun & _ & _ & _ & Hboth).
  rewrite Hrun, (Hboth eq_refl eq_refl). reflexivity.
Defined.

(** Settles a branch of [process_command] that ends in [return True]
    against the assumption that [False] was returned. *)
Ltac goes_on :=
  let H := fresh "H" in
  intros H; unfold bind at 1, ret in H;
  match type of H with
  | context [match ?m with _ => _ end] => destruct m as [[[]|?] ?]
  end;
  discriminate H.

Lemma process_command_false (cmd : string) (w w' : world) :
  process_command cmd w = (Return false, w') ->
  lower cmd = "exit" /\ w' = w.
Proof.
  unfold process_command.
  destruct (startswith "feed " (lower cmd)); [goes_on|].
  destruct (startswith "find " (lower cmd)); [goes_on|].
  destruct (startswith "summarize " (lower cmd)); [goes_on|].
  destruct (String.eqb (lower cmd) "help"); [goes_on|].
  destruct (String.eqb (lower cmd) "exit") eqn:E.
  - apply String.eqb_eq in E. unfold ret. intros H. injection H as <-.
    split; [exact E | reflexivity].
  - destruct (startswith "which episode" (lower cmd)
              || startswith "which eposide" (lower cmd)); goes_on.
Qed.

(** X2.  When [process_command] returns, it returns [False] exactly for
    a line equal to [exit] whatever the case of its letters, and then it has
    done nothing: every other line that returns asks the loop to go on. *)
Theorem only_exit_returns_false (cmd : string) (b : bool) (w w' : world) :
  process_command cmd w = (Return b, w') ->
  (b = false <-> lower cmd = "exit") /\ (b = false -> w' = w).
Proof.
  intros H. split; [split|].
  - intros ->. apply (process_command_false _ _ _ H).
  - intros Hexit. rewrite (process_command_exit _ _ Hexit) in H.
    injection H as <- _. reflexivity.
  - intros ->. apply (process_command_false _ _ _ H).
Qed.

(** The theorem at [Exit] and at [help]. *)
Lemma only_exit_returns_false_witness :
  (false = false <-> lower "Exit" = "exit")
  /\ (true = false <-> lower "help" = "exit").
Proof.
  split.
  - exact (proj1 (only_exit_returns_false "Exit" false (fresh (Text "ok"))
                    (fresh (Text "ok")) eq_refl)).
  - exact (proj1 (only_exit_returns_false "help" true (fresh (Text "ok"))
                    (snd (process_command "help" (fresh (Text "ok")))) eq_refl)).
Defined.

(** X10.  [help] and [exit] are recognised only as whole lines: a line that
    goes on after either word, be it by one space, has none of the command
    shapes and is sent to the agent as a general query, and the loop goes
    on. *)
Theorem help_and_exit_match_whole_lines (cmd rest : string) (w : world) :
  lower cmd = "help" ++ rest \/ lower cmd = "exit" ++ rest ->
  rest <> "" ->
  command_shaped cmd = false
  /\ process_command cmd w = (general_query cmd ;; ret true) w
  /\ fst (process_command cmd w) <> Return false.
Proof.
  intros Hcmd Hrest.
  assert (Hshape : command_shaped cmd = false).
  { unfold command_shaped. destruct rest as [|c rest']; [contradiction|].
    destruct Hcmd as [-> | ->]; reflexivity. }
  split; [exact Hshape|].
  rewrite (process_command_general _ _ Hshape). split; [reflexivity|].
  unfold bind, ret. destruct (general_query cmd w) as [[[]|e] w']; discriminate.
Qed.

(** The theorem at [exit ] with a space behind the word. *)
Lemma help_and_exit_match_whole_lines_witness :
  process_command "exit " (fresh (Text "ok"))
  = (general_query "exit " ;; ret true) (fresh (Text "ok")).
Proof.
  refine (proj1 (proj2 (help_and_exit_match_whole_lines "exit " " " (fresh (Text "ok"))
                          (or_intror eq_refl) _))).
  discriminate.
Defined.

(* ================================================================== *)
(** ** When the runner raises *)
(* ================================================================== *)

Lemma bind_ret_raise {A} (m : M unit) (a : A) (e : exn) (w w' : world) :
  (m ;; ret a) w = (Raise e, w') -> m w = (Raise e, w').
Proof.
  unfold bind, ret. destruct (m w) as [[[]|e0] w0]; intros H;
    [discriminate H | injection H as -> ->; reflexivity].
Qed.

Lemma _fetch_feed_raises : forall url, raises_from_runner (_fetch_feed url).
Proof.
  intros url w e w' H.
  destruct (runner w (log w ++ [Print ("Fetching RSS feed: " ++ url);
                                RunAgent (agent (self w)) (fetch_request url)])%list)
    as [out|e0] eqn:Hrun.
  - rewrite (_fetch_feed_returned _ _ _ Hrun) in H. discriminate H.
  - rewrite (_fetch_feed_raised _ _ _ Hrun) in H. injection H as <- <-.
    split; [reflexivity|].
    exists [Print ("Fetching RSS feed: " ++ url)], (fetch_request url).
    split; [reflexivity|]. split; [reflexivity | exact Hrun].
Qed.

Lemma find_raises : forall topic, raises_from_runner (find_episodes_by_topic topic).
Proof.
  intros topic w e w' H. destruct (feed_loaded w) eqn:Hfeed.
  - destruct (runner w (log w ++
        [Print ("Searching for episodes about: " ++ topic);
         RunAgent (agent (self w)) (find_request (feed_url (self w)) topic)])%list)
      as [out|e0] eqn:Hrun.
    + rewrite (find_returned _ _ out Hfeed Hrun) in H. discriminate H.
    + rewrite (find_raised _ _ e0 Hfeed Hrun) in H. injection H as <- <-.
      split; [reflexivity|].
      exists [Print ("Searching for episodes about: " ++ topic)],
             (find_request (feed_url (self w)) topic).
      split; [reflexivity|]. split; [reflexivity | exact Hrun].
  - rewrite (find_no_feed _ _ Hfeed) in H. discriminate H.
Qed.

Lemma summarize_raises (n : Z) :
  raises_from_runner
    (try_except_ValueError (summarize_episode n) (print invalid_number_message))
  /\ forall w w',
       try_except_ValueError (summarize_episode n) (print invalid_number_message) w
       <> (Raise ValueError, w').
Proof.
  assert (Hcases : forall w e w',
    try_except_ValueError (summarize_episode n) (print invalid_number_message) w
    = (Raise e, w') ->
    e <> ValueError
    /\ self w' = self w
    /\ exists before text,
         log w' = (log w ++ before ++ [RunAgent (agent (self w)) text])%list
         /\ agent_calls before = []
         /\ runner w (log w') = Raised e).
  { intros w e w' H. unfold try_except_ValueError in H.
    destruct (feed_loaded w) eqn:Hfeed.
    - destruct (runner w (log w ++
          [Print ("Summarizing episode " ++ str_of_int n ++ "...");
           RunAgent (agent (self w)) (summarize_request (feed_url (self w)) n)])%list)
        as [out|e0] eqn:Hrun.
      + rewrite (summarize_returned _ _ out Hfeed Hrun) in H. discriminate H.
      + rewrite (summarize_raised _ _ e0 Hfeed Hrun) in H.
        destruct e0; try discriminate H; injection H as <- <-;
          (split; [discriminate|]; split; [reflexivity|];
           exists [Print ("Summarizing episode " ++ str_of_int n ++ "...")],
                  (summarize_request (feed_url (self w)) n);
           split; [reflexivity|]; split; [reflexivity | exact Hrun]).
    - rewrite (summarize_no_feed _ _ Hfeed) in H. discriminate H. }
  split.
  - intros w e w' H. apply (Hcases w e w' H).
  - intros w w' H. apply (Hcases w ValueError w') in H as [Hne _]. apply Hne. reflexivity.
Qed.

Lemma print_help_returns (w : world) :
  exists evs,
    print_help w = (Return tt, update (self w) evs w) /\ agent_calls evs = [].
Proof.
  unfold print_help. step_m.
  destruct (truthy (feed_url (self w)));
    [destruct (truthy (podcast_title (self w)))|];
    eexists; (split; [same_world | reflexivity]).
Qed.

Lemma general_query_raises : forall cmd, raises_from_runner (general_query cmd).
Proof.
  intros cmd w e w' H.
  destruct (runner w (log w ++ [RunAgent (agent (self w))
      ((if feed_loaded w
        then "Using the podcast feed " ++ fmt (feed_url (self w)) ++ ": "
        else "") ++ cmd)])%list) as [out|e0] eqn:Hrun.
  - rewrite (general_query_returned _ _ out Hrun) in H. discriminate H.
  - rewrite (general_query_raised _ _ e0 Hrun) in H. injection H as <- <-.
    split; [reflexivity|].
    exists [], ((if feed_loaded w
                 then "Using the podcast feed " ++ fmt (feed_url (self w)) ++ ": "
                 else "") ++ cmd).
    split; [reflexivity|]. split; [reflexivity | exact Hrun].
Qed.

(** X5.  [process_command] raises nothing of its own.  When an exception
    leaves it, the last thing the command did was a call of the current
    agent, the only call of the command; the runner, asked with the history
    up to and with that call, raised that exception; and the session object
    is as it was before the command.  A [ValueError] never leaves a
    [summarize] line. *)
Theorem exceptions_come_from_the_runner (cmd : string) (e : exn) (w w' : world) :
  process_command cmd w = (Raise e, w') ->
  self w' = self w
  /\ (exists before text,
        log w' = (log w ++ before ++ [RunAgent (agent (self w)) text])%list
        /\ agent_calls before = []
        /\ runner w (log w') = Raised e)
  /\ (startswith "summarize " (lower cmd) = true -> e <> ValueError).
Proof.
  intros H.
  destruct (startswith "feed " (lower cmd)) eqn:H1.
  { rewrite (process_command_feed _ _ H1) in H. apply bind_ret_raise in H.
    destruct (_fetch_feed_raises _ _ _ _ H) as [Hself Hrun].
    repeat split; try assumption.
    intros H3. rewrite (startswith_app _ _ H3) in H1. discriminate H1. }
  destruct (startswith "find " (lower cmd)) eqn:H2.
  { rewrite (process_command_find _ _ H2) in H. apply bind_ret_raise in H.
    destruct (find_raises _ _ _ _ H) as [Hself Hrun].
    repeat split; try assumption.
    intros H3. rewrite (startswith_app _ _ H3) in H2. discriminate H2. }
  destruct (startswith "summarize " (lower cmd)) eqn:H3.
  { rewrite (process_command_summarize _ _ H3) in H. apply bind_ret_raise in H.
    destruct (int (strip (drop 10 cmd))) as [n|].
    - destruct (summarize_raises n) as [Hraise Hnot].
      destruct (Hraise _ _ _ H) as [Hself Hrun].
      repeat split; try assumption.
      intros _ ->. apply (Hnot _ _ H).
    - discriminate H. }
  unfold process_command in H. rewrite H1, H2, H3 in H.
  destruct (String.eqb (lower cmd) "help").
  { apply bind_ret_raise in H. destruct (print_help_returns w) as (evs & E & _).
    rewrite E in H. discriminate H. }
  destruct (String.eqb (lower cmd) "exit"); [discriminate H|].
  destruct (startswith "which episode" (lower cmd)
            || startswith "which eposide" (lower cmd)).
  { apply bind_ret_raise in H. destruct (nonempty (which_topic cmd)).
    - destruct (find_raises _ _ _ _ H) as [Hself Hrun].
      repeat split; try assumption. intros Hs. discriminate Hs.
    - discriminate H. }
  apply bind_ret_raise in H. destruct (general_query_raises _ _ _ _ H) as [Hself Hrun].
  repeat split; try assumption. intros Hs. discriminate Hs.
Qed.

(** The theorem at a question asked while the runner fails. *)
Lemma exceptions_come_from_the_runner_witness :
  self (snd (process_command "What is new?"
               (with_runner (fails (OtherError "network")) (fresh (Text "ok")))))
  = self (fresh (Text "ok"))
  /\ exists before text,
       log (snd (process_command "What is new?"
                   (with_runner (fails (OtherError "network")) (fresh (Text "ok")))))
       = (before ++ [RunAgent (agent (self (fresh (Text "ok")))) text])%list
       /\ agent_calls before = [].
Proof.
  destruct (exceptions_come_from_the_runner "What is new?" (OtherError "network")
              (with_runner (fails (OtherError "network")) (fresh (Text "ok")))
              (snd (process_command "What is new?"
                      (with_runner (fails (OtherError "network")) (fresh (Text "ok")))))
              eq_refl) as (Hself & (before & text & Hlog & Hnone & _) & _).
  split; [exact Hself|].
  exists before, text. split; [exact Hlog | exact Hnone].
Defined.

(** X4.  The [try] of the [summarize] branch also covers the call of the
    agent.  With a feed loaded and a valid number, a [ValueError] raised by
    the runner is answered like an invalid number: the message is printed
    after the announcement and the call, and the loop goes on.  Any other
    exception leaves [process_command]. *)
Theorem runner_ValueError_reads_as_invalid_number
    (cmd : string) (n : Z) (e : exn) (w : world) :
  startswith "summarize " (lower cmd) = true ->
  int (strip (drop 10 cmd)) = Some n ->
  feed_loaded w = true ->
  runner w (log w ++ [Print ("Summarizing episode " ++ str_of_int n ++ "...");
                      RunAgent (agent (self w))
                               (summarize_request (feed_url (self w)) n)])%list
  = Raised e ->
  (e = ValueError ->
   process_command cmd w
   = (Return true,
      update (self w)
             [Print ("Summarizing episode " ++ str_of_int n ++ "...");
              RunAgent (agent (self w)) (summarize_request (feed_url (self w)) n);
              Print invalid_number_message] w))
  /\ (e <> ValueError ->
      process_command cmd w
      = (Raise e,
         update (self w)
                [Print ("Summarizing episode " ++ str_of_int n ++ "...");
                 RunAgent (agent (self w)) (summarize_request (feed_url (self w)) n)]
                w)).
Proof.
  intros Hcmd Hn Hfeed Hrun.
  rewrite (process_command_summarize _ _ Hcmd), Hn.
  unfold bind, try_except_ValueError.
  rewrite (summarize_raised _ _ e Hfeed Hrun).
  split.
  - intros ->. unfold print, ret. f_equal. same_world.
  - intros Hne. destruct e; try reflexivity. exfalso. apply Hne. reflexivity.
Qed.

(** The theorem at [summarize 3] while the runner raises [ValueError]. *)
Lemma runner_ValueError_reads_as_invalid_number_witness :
  fst (process_command "summarize 3"
         (with_runner (fails ValueError) (loaded "https://x/rss" (Text "ok"))))
  = Return true.
Proof.
  rewrite (proj1 (runner_ValueError_reads_as_invalid_number "summarize 3" 3%Z ValueError
                    (with_runner (fails ValueError) (loaded "https://x/rss" (Text "ok")))
                    eq_refl eq_refl eq_refl eq_refl) eq_refl).
  reflexivity.
Defined.

(* ================================================================== *)
(** ** start and the initial fetch *)
(* ================================================================== *)

Lemma start_raised (url : option string) (e : exn) (w : world) :
  truthy url = true ->
  runner w (log w ++ [Print ("Fetching RSS feed: " ++ fmt url);
                      RunAgent (agent (self w)) (fetch_request (fmt url))])%list
  = Raised e ->
  start url w
  = (Raise e,
     update (set_feed_url (self w) url)
            [Print ("Fetching RSS feed: " ++ fmt url);
             RunAgent (agent (self w)) (fetch_request (fmt url))] w).
Proof.
  intros H Hrun. unfold start. rewrite H. unfold bind at 1 2, get_self, set_self.
  rewrite (_fetch_feed_raised _ e); [same_world | exact Hrun].
Qed.

(** X6.  [start] with no feed, or with the empty text, does nothing.
    With a feed it stores the URL before the fetch: when the runner raises
    during that fetch, [start] raises the same exception and leaves the URL
    stored beside the agent the session had before. *)
Theorem start_stores_before_fetching (url : option string) (e : exn) (w : world) :
  (truthy url = false -> start url w = (Return tt, w))
  /\ (truthy url = true ->
      runner w (log w ++ [Print ("Fetching RSS feed: " ++ fmt url);
                          RunAgent (agent (self w)) (fetch_request (fmt url))])%list
      = Raised e ->
      fst (start url w) = Raise e
      /\ feed_url (self (snd (start url w))) = url
      /\ agent (self (snd (start url w))) = agent (self w)
      /\ log (snd (start url w))
         = (log w ++ [Print ("Fetching RSS feed: " ++ fmt url);
                      RunAgent (agent (self w)) (fetch_request (fmt url))])%list).
Proof.
  split.
  - intros H. unfold start. rewrite H. reflexivity.
  - intros H Hrun. rewrite (start_raised _ _ _ H Hrun). repeat split; reflexivity.
Qed.

(** The theorem at the start with [https://x/rss] while the runner fails. *)
Lemma start_stores_before_fetching_witness :
  feed_url (self (snd (start (Some "https://x/rss")
                         (new_world sample_server [] (fails (OtherError "network"))))))
  = Some "https://x/rss"
  /\ agent (self (snd (start (Some "https://x/rss")
                         (new_world sample_server [] (fails (OtherError "network"))))))
     = agent (__init__ sample_server).
Proof.
  destruct (proj2 (start_stores_before_fetching (Some "https://x/rss")
                     (OtherError "network")
                     (new_world sample_server [] (fails (OtherError "network"))))
              eq_refl eq_refl) as (_ & Hurl & Hagent & _).
  split; [exact Hurl | exact Hagent].
Defined.

(** X7.  When the runner raises during the initial fetch,
    [interactive_mode] ends with that exception after the banner, the
    announcement and the call: no prompt is shown and no line of standard
    input is read. *)
Theorem initial_fetch_failure_ends_the_session
    (server : MCPServerStdio) (url : string) (lines : list string)
    (r : list event -> run_result) (e : exn) :
  url <> "" ->
  r (banner ++ [Print ("Fetching RSS feed: " ++ url);
                RunAgent (agent (__init__ server)) (fetch_request url)])%list
  = Raised e ->
  interactive_mode server (Some url) lines r
  = (Raise e,
     update (set_feed_url (__init__ server) (Some url))
            (banner ++ [Print ("Fetching RSS feed: " ++ url);
                        RunAgent (agent (__init__ server)) (fetch_request url)])%list
            (new_world server lines r)).
Proof.
  intros Hurl Hrun.
  assert (Htruthy : truthy (Some url) = true)
    by (destruct url; [contradiction | reflexivity]).
  unfold interactive_mode, session, opening.
  unfold bind at 1 2 3, print. rewrite Htruthy.
  rewrite (start_raised (Some url) e); [same_world | exact Htruthy | exact Hrun].
Qed.

(** The theorem at a session started with [https://x/rss] and one pending
    line, while the runner fails. *)
Lemma initial_fetch_failure_ends_the_session_witness :
  fst (interactive_mode sample_server (Some "https://x/rss") ["find sports"]
         (fails (OtherError "network")))
  = Raise (OtherError "network")
  /\ stdin (snd (interactive_mode sample_server (Some "https://x/rss") ["find sports"]
                   (fails (OtherError "network"))))
     = ["find sports"].
Proof.
  rewrite (initial_fetch_failure_ends_the_session sample_server "https://x/rss"
             ["find sports"] (fails (OtherError "network")) (OtherError "network")).
  - split; reflexivity.
  - discriminate.
  - reflexivity.
Defined.

(* ================================================================== *)
(** ** The title across fetches *)
(* ================================================================== *)

(** X8.  A title is only replaced by another title.  When a title is
    stored and the answer to the fetch of another feed has no [Title:] (or
    is not a text), the old title stays and the agent built for the new feed
    presents that feed under the old title. *)
Theorem stale_title_is_kept (url t : string) (out : final_output) (w : world) :
  url <> "" -> t <> "" ->
  podcast_title (self w) = Some t ->
  runner w (log w ++ [Print ("Fetching RSS feed: " ++ url);
                      RunAgent (agent (self w)) (fetch_request url)])%list
  = Returned out ->
  out = PyNone \/ (exists r, out = Text r /\ contains "Title:" r = false) ->
  podcast_title (self (snd (_fetch_feed url w))) = Some t
  /\ feed_url (self (snd (_fetch_feed url w))) = Some url
  /\ instructions (agent (self (snd (_fetch_feed url w))))
     = (base_instructions (self w) ++ feed_note_head ++ url ++ feed_note_tail)
       ++ "This is the '" ++ t ++ "' podcast.".
Proof.
  intros Hurl Ht Htitle Hrun Hout.
  assert (Hnone : extracted_title out = None).
  { destruct Hout as [-> | [r [-> Hr]]]; [reflexivity|].
    unfold extracted_title. rewrite Hr. reflexivity. }
  rewrite (_fetch_feed_returned _ _ _ Hrun). cbn [snd update self].
  unfold fetched_self. rewrite Hnone.
  cbn [set_agent set_feed_url podcast_title feed_url agent _create_agent
       instructions base_instructions].
  rewrite Htitle.
  destruct url as [|c url']; [contradiction|].
  destruct t as [|d t']; [contradiction|].
  repeat split; reflexivity.
Qed.

(** The theorem at a second fetch answered without a title. *)
Lemma stale_title_is_kept_witness :
  podcast_title
    (self (snd (_fetch_feed "https://y/rss"
                  (with_runner (answers (Text "10 episodes"))
                               (loaded "https://x/rss" (Text "Title: Daily News"))))))
  = Some "Daily News".
Proof.
  refine (proj1 (stale_title_is_kept "https://y/rss" "Daily News" (Text "10 episodes")
                   (with_runner (answers (Text "10 episodes"))
                                (loaded "https://x/rss" (Text "Title: Daily News")))
                   _ _ eq_refl eq_refl
                   (or_intror (ex_intro _ "10 episodes" (conj eq_refl eq_refl)))));
    discriminate.
Defined.

(** X12.  A [feed] line with nothing but white space behind the word
    fetches the empty URL, and when that fetch returns no feed is loaded any
    more: the agent is back to the base instructions and a search only
    prints the message that no feed is loaded. *)
Theorem blank_feed_unloads (cmd : string) (b : bool) (w w' : world) :
  startswith "feed " (lower cmd) = true ->
  strip (drop 5 cmd) = "" ->
  process_command cmd w = (Return b, w') ->
  feed_url (self w') = Some ""
  /\ feed_loaded w' = false
  /\ instructions (agent (self w')) = base_instructions (self w)
  /\ forall topic,
       find_episodes_by_topic topic w'
       = (Return tt, update (self w') [Print no_feed_message] w').
Proof.
  intros Hcmd Hblank H.
  rewrite (process_command_feed _ _ Hcmd), Hblank in H.
  unfold bind, ret in H.
  destruct (_fetch_feed "" w) as [[[]|e] w1] eqn:E; [|discriminate H].
  injection H as _ <-.
  destruct (_fetch_feed_return _ _ _ E) as [out ->].
  assert (Hurl : feed_url (fetched_self "" out (self w)) = Some "")
    by apply fetched_self_feed_url.
  assert (Hnone : feed_loaded (update (fetched_self "" out (self w))
                                 (fetched_events "" out (agent (self w))) w) = false).
  { unfold feed_loaded. cbn [update self]. rewrite Hurl. reflexivity. }
  split; [exact Hurl|]. split; [exact Hnone|]. split.
  - cbn [update self]. rewrite fetched_self_agent. unfold _create_agent.
    cbn [truthy nonempty instructions]. unfold fetched_self.
    destruct (extracted_title out); reflexivity.
  - intros topic. apply find_no_feed, Hnone.
Qed.

(** The theorem at the line [feed ] in a session with a feed. *)
Lemma blank_feed_unloads_witness :
  feed_loaded (snd (process_command "feed  " (loaded "https://x/rss" (Text "ok")))) = false.
Proof.
  exact (proj1 (proj2 (blank_feed_unloads "feed  " true
                         (loaded "https://x/rss" (Text "ok"))
                         (snd (process_command "feed  " (loaded "https://x/rss" (Text "ok"))))
                         eq_refl eq_refl eq_refl))).
Defined.

(** X14.  After a [feed] line for a non-empty URL has returned, a [find]
    line is announced and then sent to the agent built for that URL, with a
    request that names the URL and the topic. *)
Theorem find_after_feed (cmd find_cmd : string) (b : bool) (w w1 : world) :
  startswith "feed " (lower cmd) = true ->
  strip (drop 5 cmd) <> "" ->
  process_command cmd w = (Return b, w1) ->
  startswith "find " (lower find_cmd) = true ->
  exists tail,
    log (snd (process_command find_cmd w1))
    = (log w1
       ++ [Print ("Searching for episodes about: " ++ strip (drop 5 find_cmd));
           RunAgent (_create_agent (self w1) (Some (strip (drop 5 cmd))))
                    (find_request (Some (strip (drop 5 cmd)))
                                  (strip (drop 5 find_cmd)))]
       ++ tail)%list.
Proof.
  intros Hcmd Hurl H Hfind.
  destruct (process_command_feed_return _ _ _ _ Hcmd H) as (Hfeed & Hagent & _).
  assert (Hloaded : feed_loaded w1 = true).
  { unfold feed_loaded. rewrite Hfeed.
    destruct (strip (drop 5 cmd)); [contradiction | reflexivity]. }
  rewrite (process_command_find _ _ Hfind), bind_ret_log.
  destruct (find_log (strip (drop 5 find_cmd)) w1 Hloaded) as [tail Htail].
  exists tail. rewrite Htail, Hfeed, <- Hagent. reflexivity.
Qed.

(** The theorem at [feed https://x/rss] followed by [find sports]. *)
Lemma find_after_feed_witness :
  exists tail,
    agent_calls
      (log (snd (process_command "find sports"
                   (snd (process_command "feed https://x/rss" (fresh (Text "ok")))))))
    = (agent_calls (log (snd (process_command "feed https://x/rss" (fresh (Text "ok")))))
       ++ RunAgent (_create_agent
                      (self (snd (process_command "feed https://x/rss" (fresh (Text "ok")))))
                      (Some "https://x/rss"))
                   (find_request (Some "https://x/rss") "sports")
       :: agent_calls tail)%list.
Proof.
  destruct (find_after_feed "feed https://x/rss" "find sports" true
              (fresh (Text "ok"))
              (snd (process_command "feed https://x/rss" (fresh (Text "ok"))))
              eq_refl) as [tail Htail]; try reflexivity; [discriminate|].
  exists tail. rewrite Htail. rewrite agent_calls_app. reflexivity.
Defined.

(* ================================================================== *)
(** ** What every session object keeps *)
(* ================================================================== *)







(* ================================================================== *)
(** ** One agent call per command *)
(* ================================================================== *)

Lemma calls_bind_ret {A} (m : M unit) (a : A) :
  calls_once_at_most m -> calls_once_at_most (m ;; ret a).
Proof.
  intros Hm w. destruct (Hm w) as (evs & E & Hle).
  exists evs. rewrite bind_ret_log. split; assumption.
Qed.

Lemma calls_print (line : string) : calls_once_at_most (print line).
Proof. intros w. exists [Print line]. split; [reflexivity | cbn; lia]. Qed.

Lemma calls__fetch_feed (url : string) : calls_once_at_most (_fetch_feed url).
Proof.
  intros w.
  destruct (runner w (log w ++ [Print ("Fetching RSS feed: " ++ url);
                                RunAgent (agent (self w)) (fetch_request url)])%list)
    as [out|e] eqn:Hrun.
  - rewrite (_fetch_feed_returned _ _ _ Hrun). eexists. split; [reflexivity|].
    unfold fetched_events. destruct (extracted_title out); cbn; lia.
  - rewrite (_fetch_feed_raised _ _ _ Hrun). eexists. split; [reflexivity|]. cbn; lia.
Qed.

Lemma calls_find (topic : string) : calls_once_at_most (find_episodes_by_topic topic).
Proof.
  intros w. destruct (feed_loaded w) eqn:Hfeed.
  - destruct (runner w (log w ++
        [Print ("Searching for episodes about: " ++ topic);
         RunAgent (agent (self w)) (find_request (feed_url (self w)) topic)])%list)
      as [out|e] eqn:Hrun.
    + rewrite (find_returned _ _ out Hfeed Hrun). eexists. split; [reflexivity|]. cbn; lia.
    + rewrite (find_raised _ _ e Hfeed Hrun). eexists. split; [reflexivity|]. cbn; lia.
  - rewrite (find_no_feed _ _ Hfeed). eexists. split; [reflexivity|]. cbn; lia.
Qed.

Lemma calls_summarize (n : Z) :
  calls_once_at_most
    (try_except_ValueError (summarize_episode n) (print invalid_number_message)).
Proof.
  intros w. unfold try_except_ValueError. destruct (feed_loaded w) eqn:Hfeed.
  - destruct (runner w (log w ++
        [Print ("Summarizing episode " ++ str_of_int n ++ "...");
         RunAgent (agent (self w)) (summarize_request (feed_url (self w)) n)])%list)
      as [out|e] eqn:Hrun.
    + rewrite (summarize_returned _ _ out Hfeed Hrun). eexists.
      split; [reflexivity|]. cbn; lia.
    + rewrite (summarize_raised _ _ e Hfeed Hrun).
      destruct e;
        try (eexists; split; [reflexivity|]; cbn; lia).
      unfold print. cbn [snd emit update log]. rewrite <- app_assoc.
      eexists. split; [reflexivity|]. cbn; lia.
  - rewrite (summarize_no_feed _ _ Hfeed). eexists. split; [reflexivity|]. cbn; lia.
Qed.

Lemma calls_print_help : calls_once_at_most print_help.
Proof.
  intros w. destruct (print_help_returns w) as (evs & E & Hnone).
  exists evs. rewrite E, Hnone. split; [reflexivity | cbn; lia].
Qed.

Lemma calls_general_query (cmd : string) : calls_once_at_most (general_query cmd).
Proof.
  intros w.
  destruct (runner w (log w ++ [RunAgent (agent (self w))
      ((if feed_loaded w
        then "Using the podcast feed " ++ fmt (feed_url (self w)) ++ ": "
        else "") ++ cmd)])%list) as [out|e] eqn:Hrun.
  - rewrite (general_query_returned _ _ out Hrun). eexists. split; [reflexivity|]. cbn; lia.
  - rewrite (general_query_raised _ _ e Hrun). eexists. split; [reflexivity|]. cbn; lia.
Qed.

(** X11.  Whatever the line and whatever the runner does, one command
    only adds to what was shown and calls the agent once at most. *)
Theorem one_agent_call_per_command (cmd : string) (w : world) :
  exists evs,
    log (snd (process_command cmd w)) = (log w ++ evs)%list
    /\ List.length (agent_calls evs) <= 1.
Proof.
  unfold process_command.
  destruct (startswith "feed " (lower cmd)).
  { apply calls_bind_ret, calls__fetch_feed. }
  destruct (startswith "find " (lower cmd)).
  { apply calls_bind_ret, calls_find. }
  destruct (startswith "summarize " (lower cmd)).
  { apply calls_bind_ret. destruct (int _) as [n|]; [apply calls_summarize|].
    intros w0. exists [Print invalid_number_message]. split; [reflexivity | cbn; lia]. }
  destruct (String.eqb (lower cmd) "help").
  { apply calls_bind_ret, calls_print_help. }
  destruct (String.eqb (lower cmd) "exit").
  { exists []. rewrite app_nil_r. split; [reflexivity | cbn; lia]. }
  destruct (startswith "which episode" (lower cmd)
            || startswith "which eposide" (lower cmd)).
  { apply calls_bind_ret. destruct (nonempty _); [apply calls_find | apply calls_print]. }
  apply calls_bind_ret, calls_general_query.
Qed.

(* ================================================================== *)
(** ** The topic of a question is in lower case *)
(* ================================================================== *)

Lemma lower_char_idempotent (c : ascii) : lower_char (lower_char c) = lower_char c.
Proof. destruct c as [[] [] [] [] [] [] [] []]; reflexivity. Qed.

Lemma lower_idempotent (s : string) : lower (lower s) = lower s.
Proof.
  induction s as [|c s IH]; [reflexivity|].
  cbn [lower]. rewrite lower_char_idempotent, IH. reflexivity.
Qed.

Section LowerCase.

Variable s : string.
Hypothesis s_lower : lower s = s.

Lemma lower_lstrip : lower (lstrip s) = lstrip s.
Proof.
  revert s_lower. induction s as [|c t IH]; intros H; [reflexivity|].
  cbn [lstrip]. destruct (isspace c); [|exact H].
  cbn [lower] in H. injection H as _ H. apply IH, H.
Qed.

Lemma lower_rstrip : lower (rstrip s) = rstrip s.
Proof.
  revert s_lower. induction s as [|c t IH]; intros H; [reflexivity|].
  cbn [lower] in H. injection H as Hc Ht. specialize (IH Ht).
  cbn [rstrip]. destruct (rstrip t) as [|d t'].
  - destruct (isspace c); [reflexivity|]. cbn [lower]. rewrite Hc. reflexivity.
  - change (lower (String c (String d t')))
      with (String (lower_char c) (lower (String d t'))).
    rewrite Hc, IH. reflexivity.
Qed.

Lemma lower_drop (k : nat) : lower (drop k s) = drop k s.
Proof.
  revert k s_lower. induction s as [|c t IH]; intros k H.
  - destruct k; reflexivity.
  - destruct k as [|k]; [exact H|].
    cbn [lower] in H. injection H as _ H. cbn [drop]. apply IH, H.
Qed.

Lemma lower_replace_from (old : string) (k : nat) :
  lower (replace_from old "" k s) = replace_from old "" k s.
Proof.
  revert k s_lower. induction s as [|c t IH]; intros k H; [reflexivity|].
  cbn [lower] in H. injection H as Hc Ht.
  cbn [replace_from]. destruct k as [|k]; [|apply IH, Ht].
  destruct (startswith old (String c t)).
  - cbn [append]. apply IH, Ht.
  - cbn [lower]. rewrite Hc, (IH 0 Ht). reflexivity.
Qed.

End LowerCase.

Lemma lower_strip (s : string) : lower s = s -> lower (strip s) = strip s.
Proof. intros H. unfold strip. apply lower_rstrip, lower_lstrip, H. Qed.

(** X13.  The topic taken from a [which episode] question is always in
    lower case: the capitals of the question never reach the search. *)
Theorem which_topic_is_lower_case (cmd : string) :
  lower (which_topic cmd) = which_topic cmd.
Proof.
  unfold which_topic.
  set (t0 := strip (replace "which eposide" "" (replace "which episode" "" (lower cmd)))).
  assert (H0 : lower t0 = t0).
  { unfold t0, replace. apply lower_strip.
    do 2 apply lower_replace_from. apply lower_idempotent. }
  set (t1 := if startswith "is about " t0 then strip (drop 9 t0) else t0).
  assert (H1 : lower t1 = t1).
  { unfold t1. destruct (startswith "is about " t0); [|exact H0].
    apply lower_strip, lower_drop, H0. }
  destruct (startswith "about " t1); [|exact H1].
  apply lower_strip, lower_drop, H1.
Qed.

(* ================================================================== *)
(** ** A session whose input ends *)
(* ================================================================== *)

Lemma process_command_runner (cmd : string) (w : world) :
  runner (snd (process_command cmd w)) = runner w.
Proof. destruct (framed_process_command cmd w) as (s & evs & ->). reflexivity. Qed.

(** With a runner that always answers, every line but [exit] returns
    [True]. *)
Lemma process_command_answered (cmd : string) (w : world) :
  always_answers (runner w) ->
  lower cmd <> "exit" ->
  exists w', process_command cmd w = (Return true, w').
Proof.
  intros Hans Hexit.
  destruct (startswith "feed " (lower cmd)) eqn:H1.
  { rewrite (process_command_feed _ _ H1). unfold bind, ret.
    destruct (Hans (log w ++ [Print ("Fetching RSS feed: " ++ strip (drop 5 cmd));
                              RunAgent (agent (self w))
                                       (fetch_request (strip (drop 5 cmd)))])%list)
      as [out Hout].
    rewrite (_fetch_feed_returned _ _ _ Hout). eauto. }
  assert (Hfind : forall topic, exists w',
            (find_episodes_by_topic topic ;; ret true) w = (Return true, w')).
  { intros topic. unfold bind, ret. destruct (feed_loaded w) eqn:Hfeed.
    - destruct (Hans (log w ++
          [Print ("Searching for episodes about: " ++ topic);
           RunAgent (agent (self w)) (find_request (feed_url (self w)) topic)])%list)
        as [out Hout].
      rewrite (find_returned _ _ out Hfeed Hout). eauto.
    - rewrite (find_no_feed _ _ Hfeed). eauto. }
  destruct (startswith "find " (lower cmd)) eqn:H2.
  { rewrite (process_command_find _ _ H2). apply Hfind. }
  destruct (startswith "summarize " (lower cmd)) eqn:H3.
  { rewrite (process_command_summarize _ _ H3).
    unfold bind, ret, try_except_ValueError.
    destruct (int (strip (drop 10 cmd))) as [n|]; [|unfold raise, print; eauto].
    destruct (feed_loaded w) eqn:Hfeed.
    - destruct (Hans (log w ++
          [Print ("Summarizing episode " ++ str_of_int n ++ "...");
           RunAgent (agent (self w)) (summarize_request (feed_url (self w)) n)])%list)
        as [out Hout].
      rewrite (summarize_returned _ _ out Hfeed Hout). eauto.
    - rewrite (summarize_no_feed _ _ Hfeed). eauto. }
  destruct (String.eqb (lower cmd) "help") eqn:H4.
  { apply String.eqb_eq in H4. rewrite (process_command_help _ _ H4).
    unfold bind, ret. destruct (print_help_returns w) as (evs & E & _).
    rewrite E. eauto. }
  destruct (String.eqb (lower cmd) "exit") eqn:H5.
  { apply String.eqb_eq in H5. contradiction. }
  destruct (startswith "which episode" (lower cmd)
            || startswith "which eposide" (lower cmd)) eqn:H6.
  { rewrite (process_command_which _ _ H6).
    destruct (nonempty (which_topic cmd)); [apply Hfind|].
    unfold bind, ret, print. eauto. }
  assert (Hshape : command_shaped cmd = false).
  { unfold command_shaped. rewrite H1, H2, H3, H4, H5. exact H6. }
  rewrite (process_command_general _ _ Hshape). unfold bind, ret.
  destruct (Hans (log w ++ [RunAgent (agent (self w))
      ((if feed_loaded w
        then "Using the podcast feed " ++ fmt (feed_url (self w)) ++ ": "
        else "") ++ cmd)])%list) as [out Hout].
  rewrite (general_query_returned _ _ out Hout). eauto.
Qed.

Lemma while_keep_running_to_the_end (n : nat) :
  forall w : world,
    List.length (stdin w) = n ->
    always_answers (runner w) ->
    (forall l, In l (stdin w) -> lower l <> "exit") ->
    exists w',
      while_keep_running n w = (Raise EOFError, w')
      /\ stdin w' = [] /\ runner w' = runner w.
Proof.
  induction n as [|n IH]; intros w Hlen Hans Hno.
  - assert (Hnil : stdin w = []) by (destruct (stdin w); [reflexivity | discriminate]).
    cbn [while_keep_running]. unfold bind at 1. rewrite (input_end _ Hnil).
    eexists. split; [reflexivity|]. split; [exact Hnil | reflexivity].
  - destruct (stdin w) as [|cmd rest] eqn:Hin; [discriminate|].
    cbn [while_keep_running]. unfold bind at 1. rewrite (input_line _ _ _ Hin).
    unfold bind at 1.
    destruct (process_command_answered cmd (asked rest w) Hans
                (Hno cmd (or_introl eq_refl))) as [w2 E].
    pose proof (process_command_stdin cmd (asked rest w)) as Hstdin.
    pose proof (process_command_runner cmd (asked rest w)) as Hrunner.
    rewrite E in *. cbn [snd asked stdin runner] in Hstdin, Hrunner.
    destruct (IH w2) as (w' & Hloop & Hend & Hsame).
    + rewrite Hstdin. cbn [List.length] in Hlen. lia.
    + rewrite Hrunner. exact Hans.
    + intros l Hl. rewrite Hstdin in Hl. apply Hno. right. exact Hl.
    + exists w'. split; [exact Hloop|]. split; [exact Hend|].
      rewrite Hsame. exact Hrunner.
Qed.

(** X3.  With a runner that answers every call, a command loop whose
    pending input has no [exit] line reads every line and then ends with
    [EOFError] at the prompt after the last one; as the world is reachable,
    the [finally] clause lets that exception through. *)
Theorem input_without_exit_ends_in_EOFError (w : world) :
  reachable w ->
  always_answers (runner w) ->
  (forall l, In l (stdin w) -> lower l <> "exit") ->
  exists w',
    try_finally command_loop cleanup w = (Raise EOFError, w')
    /\ stdin w' = [].
Proof.
  intros Hw Hans Hno. rewrite (try_finally_cleanup w Hw). unfold command_loop.
  destruct (while_keep_running_to_the_end _ w eq_refl Hans Hno)
    as (w' & Hloop & Hend & _).
  exists w'. split; assumption.
Qed.

(** The theorem at a new session with two pending lines. *)
Lemma input_without_exit_ends_in_EOFError_witness :
  exists w',
    try_finally command_loop cleanup
      (new_world sample_server ["help"; "find sports"] (answers (Text "ok")))
    = (Raise EOFError, w')
    /\ stdin w' = [].
Proof.
  apply input_without_exit_ends_in_EOFError.
  - apply reach_new.
  - intros history. exists (Text "ok"). reflexivity.
  - intros l [<-|[<-|[]]]; discriminate.
Defined.

Lemma while_keep_running_returned (n : nat) :
  forall w w' : world,
    List.length (stdin w) = n ->
    while_keep_running n w = (Return tt, w') ->
    exists before cmd after,
      stdin w = (before ++ cmd :: after)%list
      /\ (forall l, In l before -> lower l <> "exit")
      /\ lower cmd = "exit"
      /\ stdin w' = after.
Proof.
  induction n as [|n IH]; intros w w' Hlen H.
  - assert (Hnil : stdin w = []) by (destruct (stdin w); [reflexivity | discriminate]).
    cbn [while_keep_running] in H. unfold bind at 1 in H.
    rewrite (input_end _ Hnil) in H. discriminate H.
  - destruct (stdin w) as [|cmd rest] eqn:Hin; [discriminate|].
    cbn [while_keep_running] in H. unfold bind at 1 in H.
    rewrite (input_line _ _ _ Hin) in H. unfold bind at 1 in H.
    pose proof (process_command_stdin cmd (asked rest w)) as Hstdin.
    destruct (process_command cmd (asked rest w)) as [[[|]|e] w2] eqn:E;
      [| |discriminate H]; cbn [snd asked stdin] in Hstdin.
    + destruct (IH w2 w') as (before & c & after & Hsplit & Hbefore & Hc & Hafter).
      * rewrite Hstdin. cbn [List.length] in Hlen. lia.
      * exact H.
      * exists (cmd :: before), c, after. rewrite Hstdin in Hsplit.
        split; [rewrite Hsplit; reflexivity|].
        split; [|split; assumption].
        intros l [<-|Hl]; [|apply Hbefore, Hl].
        intros Hexit. rewrite (process_command_exit _ _ Hexit) in E. discriminate E.
    + unfold ret in H. injection H as <-.
      destruct (process_command_false _ _ _ E) as [Hexit ->].
      exists [], cmd, rest. repeat split; try assumption.
      intros l [].
Qed.

(** X15.  The command loop returns only at an [exit] line: when it
    returns, the pending input was some lines that are not [exit], then a
    line equal to [exit] whatever the case of its letters, and the lines
    behind that one are left unread. *)
Theorem loop_returns_at_the_first_exit (w w' : world) :
  command_loop w = (Return tt, w') ->
  exists before cmd after,
    stdin w = (before ++ cmd :: after)%list
    /\ (forall l, In l before -> lower l <> "exit")
    /\ lower cmd = "exit"
    /\ stdin w' = after.
Proof. apply while_keep_running_returned. reflexivity. Qed.

(** The theorem at the input [help], [EXIT], [find sports]. *)
Lemma loop_returns_at_the_first_exit_witness :
  exists before cmd after,
    ["help"; "EXIT"; "find sports"] = (before ++ cmd :: after)%list
    /\ (forall l, In l before -> lower l <> "exit")
    /\ lower cmd = "exit"
    /\ stdin (snd (command_loop
                     (new_world sample_server ["help"; "EXIT"; "find sports"]
                                (answers (Text "ok")))))
       = after.
Proof.
  exact (loop_returns_at_the_first_exit
           (new_world sample_server ["help"; "EXIT"; "find sports"] (answers (Text "ok")))
           (snd (command_loop
                   (new_world sample_server ["help"; "EXIT"; "find sports"]
                              (answers (Text "ok")))))
           eq_refl).
Defined.

(** X16.  A line [Title:] with only white space up to the next [Title:]
    or the end of the line stores the empty title: the title stored before
    is lost, and the agent built for a non-empty URL has the note on the
    feed but no sentence on the title. *)
Theorem empty_title_overwrites (url r l : string) (w : world) :
  url <> "" ->
  runner w (log w ++ [Print ("Fetching RSS feed: " ++ url);
                      RunAgent (agent (self w)) (fetch_request url)])%list
  = Returned (Text r) ->
  first_title_line r = Some l ->
  title_between l = Some "" ->
  podcast_title (self (snd (_fetch_feed url w))) = Some ""
  /\ instructions (agent (self (snd (_fetch_feed url w))))
     = base_instructions (self w) ++ feed_note_head ++ url ++ feed_note_tail.
Proof.
  intros Hurl Hrun Hline Hempty.
  assert (Htitle : extracted_title (Text r) = Some "")
    by (rewrite extracted_title_between, Hline; exact Hempty).
  rewrite (_fetch_feed_returned _ _ _ Hrun). cbn [snd update self].
  unfold fetched_self. rewrite Htitle.
  cbn [set_agent set_feed_url set_podcast_title podcast_title feed_url agent
       _create_agent instructions base_instructions truthy nonempty fmt].
  destruct url as [|c url']; [contradiction|]. split; reflexivity.
Qed.

(** The theorem at an answer whose title line is bare, after a fetch that
    had stored a title. *)
Lemma empty_title_overwrites_witness :
  podcast_title
    (self (snd (_fetch_feed "https://y/rss"
                  (with_runner (answers (Text "Title:  "))
                               (loaded "https://x/rss" (Text "Title: Daily News"))))))
  = Some "".
Proof.
  refine (proj1 (empty_title_overwrites "https://y/rss" "Title:  " "Title:  "
                   (with_runner (answers (Text "Title:  "))
                                (loaded "https://x/rss" (Text "Title: Daily News")))
                   _ eq_refl eq_refl eq_refl)).
  discriminate.
Defined.
